(** * The Programmers Academy: HTTP client and registration flow

    A shallow embedding of [src/lib/api.ts] (the [request] wrapper and
    the [api] convenience methods), of [services/registration.ts]
    ([createRegistration]) and of the submit handler of the
    registration modal, together with the properties the specification
    states about them.

    Conventions.
    - JavaScript values are the type [JsVal]; numbers are the integers
      (HTTP status codes, identifiers), strings are sequences of code
      units below 256.
    - An [async] function is a computation [Async A]: it reads and
      updates the [World] (logical clock in milliseconds, pending
      timers, aborted signals, the log of [fetch] calls) and settles as
      [Resolved], [Rejected] or stays [Pending].
    - What the browser and the server do is not in the repository: the
      base URL, [JSON.stringify], [JSON.parse], [Date.prototype.toISOString]
      and the behaviour of the server are section variables.
    - An options object is known by its own properties: a member is
      [Absent] or [Own], and the value of an own property may be
      [undefined].
    - A mounted component is the state React holds together with the
      state of its last render, which is what the handlers of that render
      closed over; a render is a step of its own. *)

From Stdlib Require Import ZArith Lia Ascii String List Bool.
From stdpp Require Import base option list strings gmap pretty.

Local Open Scope Z_scope.
Local Open Scope string_scope.

(** ** JavaScript values *)

#[local] Set Warnings "-register-all".

Inductive JsVal : Type :=
| JUndefined
| JNull
| JBool (b : bool)
| JNum (n : Z)
| JStr (s : string)
| JArr (items : list JsVal)
| JObj (fields : list (string * JsVal)).

(** Own property lookup in an object literal (first binding of the key). *)
Fixpoint assoc (k : string) (fields : list (string * JsVal)) : option JsVal :=
  match fields with
  | [] => None
  | (k', v) :: rest => if String.eqb k k' then Some v else assoc k rest
  end.

(** [v.k] for a data property [k] that no built-in prototype defines (the
    sources read [message] and [name] only): objects answer with their own
    field, every other non-nullish value with [undefined]; [None] is the
    TypeError of reading a property of [null] or [undefined]. *)
Definition member (v : JsVal) (k : string) : option JsVal :=
  match v with
  | JUndefined | JNull => None
  | JObj fields => Some (default JUndefined (assoc k fields))
  | _ => Some JUndefined
  end.

(** [v?.k] *)
Definition optional_member (v : JsVal) (k : string) : JsVal :=
  default JUndefined (member v k).

(** ToBoolean *)
Definition truthy (v : JsVal) : bool :=
  match v with
  | JUndefined | JNull => false
  | JBool b => b
  | JNum n => negb (n =? 0)%Z
  | JStr s => negb (String.eqb s "")
  | JArr _ | JObj _ => true
  end.

(** [a || b] *)
Definition js_or (a b : JsVal) : JsVal := if truthy a then a else b.

(** [v === "s"] *)
Definition strict_eq_string (v : JsVal) (s : string) : bool :=
  match v with
  | JStr t => String.eqb t s
  | _ => false
  end.

(** An [Error] instance as seen through [name] and [message]. *)
Definition js_error (name message : string) : JsVal :=
  JObj [("name", JStr name); ("message", JStr message)].

(** The DOMException a fetch or a body read rejects with once its signal
    is aborted; only its [name] is inspected by the sources. *)
Definition AbortError : JsVal :=
  js_error "AbortError" "The operation was aborted.".

(** [String.prototype.includes] *)
Fixpoint starts_with (s prefix : string) : bool :=
  match prefix, s with
  | EmptyString, _ => true
  | String _ _, EmptyString => false
  | String a prefix', String b s' => Ascii.eqb a b && starts_with s' prefix'
  end.

Fixpoint includes (s needle : string) : bool :=
  starts_with s needle ||
  match s with
  | EmptyString => false
  | String _ s' => includes s' needle
  end.

(** ** Request options and headers *)

(** [HeadersInit]: a plain record, an array of name/value pairs, or a
    [Headers] instance. *)
Inductive HeadersInit : Type :=
| HeadersRecord (fields : gmap string string)
| HeadersPairs (pairs : list (list string))
| HeadersInstance (entries : list (string * string)).

(** The own enumerable properties an object spread [{...h}] copies: the
    fields of a record, the indices of an array, nothing for a [Headers]
    instance (its entries live in an internal slot). *)
Definition own_properties (h : HeadersInit) : gmap string JsVal :=
  match h with
  | HeadersRecord fields => JStr <$> fields
  | HeadersPairs pairs =>
      list_to_map (imap (fun i p => (pretty i, JArr (JStr <$> p))) pairs)
  | HeadersInstance _ => ∅
  end.

(** An optional member of an object literal: no own property ([Absent]),
    or an own property, whose value may be [undefined] ([Own None]). *)
Inductive Property (A : Type) : Type :=
| Absent
| Own (value : option A).
Arguments Absent {A}.
Arguments Own {A} value.

(** [o.k]: the value read from a property, [undefined] when it is absent. *)
Definition read {A} (p : Property A) : option A :=
  match p with
  | Absent => None
  | Own value => value
  end.

Record RequestOptions : Type := mkRequestOptions {
  own_method : Property string;
  own_body : Property string;
  own_headers : Property HeadersInit;
  own_signal : Property nat;
  own_timeout : Property N;
  (** the remaining members of [RequestInit] (mode, credentials, cache, ...) *)
  opt_extra : gmap string JsVal;
}.

(** [options.method], [options.body], [options.headers], [options.signal],
    [options.timeout] *)
Definition opt_method (o : RequestOptions) : option string := read (own_method o).
Definition opt_body (o : RequestOptions) : option string := read (own_body o).
Definition opt_headers (o : RequestOptions) : option HeadersInit := read (own_headers o).
Definition opt_signal (o : RequestOptions) : option nat := read (own_signal o).
Definition opt_timeout (o : RequestOptions) : option N := read (own_timeout o).

(** A member written in an object literal when it has a value. *)
Definition written {A} (v : option A) : Property A :=
  match v with
  | Some x => Own (Some x)
  | None => Absent
  end.

(** The options object that has the given members and no other. *)
Definition mkOptions (method body : option string) (headers : option HeadersInit)
    (signal : option nat) (timeout : option N) (extra : gmap string JsVal)
  : RequestOptions :=
  mkRequestOptions (written method) (written body) (written headers)
    (written signal) (written timeout) extra.

Definition no_options : RequestOptions :=
  mkOptions None None None None None ∅.

(** One member of [{...a, ...b}]: an own property of [b] wins, also when
    its value is [undefined]. *)
Definition over {A} (a b : Property A) : Property A :=
  match b with
  | Absent => a
  | Own _ => b
  end.

(** [{...a, ...b}] *)
Definition spread (a b : RequestOptions) : RequestOptions :=
  {| own_method := over (own_method a) (own_method b);
     own_body := over (own_body a) (own_body b);
     own_headers := over (own_headers a) (own_headers b);
     own_signal := over (own_signal a) (own_signal b);
     own_timeout := over (own_timeout a) (own_timeout b);
     opt_extra := opt_extra b ∪ opt_extra a |}.

(** The second argument of [fetch] as [request] builds it. *)
Record FetchInit : Type := mkInit {
  init_method : option string;
  init_body : option string;
  init_timeout : option N;
  init_extra : gmap string JsVal;
  init_signal : nat;
  init_headers : gmap string JsVal;
}.

Record FetchCall : Type := mkCall {
  call_url : string;
  call_init : FetchInit;
}.

(** ** What the network does with a call *)

Inductive BodyScript : Type :=
| BodyNever
| BodyFailure (after : N) (name message : string)
| BodyText (after : N) (text : string).

Record Response : Type := mkResponse {
  status : Z;
  content_type : option string;   (* [headers.get("content-type")] *)
  body : BodyScript;
}.

Inductive FetchScript : Type :=
| NoResponse
| TransportFailure (after : N) (name message : string)
| Responds (after : N) (r : Response).

(** [response.ok] *)
Definition ok (r : Response) : bool :=
  (200 <=? status r)%Z && (status r <=? 299)%Z.

(** ** The event loop as seen by one async function *)

Record Timer : Type := mkTimer {
  timer_id : nat;
  fires_at : N;
  aborts : nat;      (* the controller whose [abort()] the callback calls *)
}.

Record World : Type := mkWorld {
  now : N;                     (* logical clock, milliseconds *)
  fresh : nat;                 (* next handle for a controller or a timer *)
  timers : list Timer;         (* pending timers *)
  aborted : list nat;          (* controllers whose signal is aborted *)
  fetched : list FetchCall;    (* calls of [fetch], oldest first *)
}.

Inductive Completion (A : Type) : Type :=
| Resolved (a : A)
| Rejected (e : JsVal)
| Pending.
Arguments Resolved {A} a.
Arguments Rejected {A} e.
Arguments Pending {A}.

Definition Async (A : Type) : Type := World -> Completion A * World.

#[export] Instance async_ret : MRet Async :=
  fun A a w => (Resolved a, w).

#[export] Instance async_bind : MBind Async :=
  fun A B k m w =>
    match m w with
    | (Resolved a, w') => k a w'
    | (Rejected e, w') => (Rejected e, w')
    | (Pending, w') => (Pending, w')
    end.

Definition throw {A} (e : JsVal) : Async A := fun w => (Rejected e, w).

(** [try { body } catch (error) { handler } finally { finalizer }] *)
Definition try_catch_finally {A} (body : Async A) (handler : JsVal -> Async A)
    (finalizer : Async unit) : Async A :=
  fun w =>
    let caught :=
      match body w with
      | (Rejected e, w') => handler e w'
      | settled => settled
      end in
    match caught with
    | (Pending, w') => (Pending, w')
    | (c, w') =>
        match finalizer w' with
        | (Resolved _, w'') => (c, w'')
        | (Rejected e, w'') => (Rejected e, w'')
        | (Pending, w'') => (Pending, w'')
        end
    end.

(** The clock reaches [t]: timers due strictly before [t] have fired. *)
Definition due (strictly : bool) (t : N) (tm : Timer) : bool :=
  if strictly then N.ltb (fires_at tm) t else N.leb (fires_at tm) t.

Definition elapse (strictly : bool) (t : N) (w : World) : World :=
  {| now := t;
     fresh := fresh w;
     timers := List.filter (fun tm => negb (due strictly t tm)) (timers w);
     aborted := List.map aborts (List.filter (due strictly t) (timers w)) ++ aborted w;
     fetched := fetched w |}.

(** When the signal of controller [c] will be aborted, if ever. *)
Fixpoint abort_time (c : nat) (ts : list Timer) : option N :=
  match ts with
  | [] => None
  | tm :: rest =>
      if Nat.eqb (aborts tm) c
      then Some (from_option (N.min (fires_at tm)) (fires_at tm) (abort_time c rest))
      else abort_time c rest
  end.

(** Awaiting an abortable operation that would settle as [snd op] after
    [fst op] milliseconds ([None]: never).  It settles if it is due no later
    than the abort; otherwise the timer fires first and the operation
    rejects with [AbortError]. *)
Definition await {A} (signal : nat) (op : option (N * Completion A)) : Async A :=
  fun w =>
    if bool_decide (signal ∈ aborted w) then (Rejected AbortError, w)
    else
      match op, abort_time signal (timers w) with
      | Some (d, c), Some deadline =>
          if N.leb (now w + d)%N deadline
          then (c, elapse true (now w + d)%N w)
          else (Rejected AbortError, elapse false deadline w)
      | Some (d, c), None => (c, elapse true (now w + d)%N w)
      | None, Some deadline => (Rejected AbortError, elapse false deadline w)
      | None, None => (Pending, w)
      end.

(** [new AbortController()] *)
Definition new_AbortController : Async nat :=
  fun w => (Resolved (fresh w),
            mkWorld (now w) (S (fresh w)) (timers w) (aborted w) (fetched w)).

(** The delay a timer waits for: [setTimeout] takes its delay as a 32-bit
    signed integer, and a delay of 2^31 ms or more makes the timer fire at
    once. *)
Definition timer_delay (ms : N) : N :=
  if (ms <? 2147483648)%N then ms else 0%N.

(** [setTimeout(() => { controller.abort(); }, ms)] *)
Definition setTimeout_abort (controller : nat) (ms : N) : Async nat :=
  fun w => (Resolved (fresh w),
            mkWorld (now w) (S (fresh w))
              (mkTimer (fresh w) (now w + timer_delay ms)%N controller :: timers w)
              (aborted w) (fetched w)).

(** [clearTimeout(id)] *)
Definition clearTimeout (id : nat) : Async unit :=
  fun w => (Resolved tt,
            mkWorld (now w) (fresh w)
              (List.filter (fun tm => negb (Nat.eqb (timer_id tm) id)) (timers w))
              (aborted w) (fetched w)).

(** A response as [fetch] hands it out: reading its body stays under the
    signal the fetch was started with. *)
Record LiveResponse : Type := mkLive {
  resp : Response;
  resp_signal : nat;
}.

(** ** [src/lib/api.ts] *)

(** What the sources take from their environment. *)
Record Platform : Type := mkPlatform {
  (** [import.meta.env.VITE_API_BASE_URL] *)
  BASE_URL : string;
  (** [JSON.stringify]; [None] is [undefined] (nothing to serialize). *)
  JSON_stringify : JsVal -> option string;
  (** [JSON.parse] as [response.json()] applies it to the body text; [inr]
      carries the message of the SyntaxError. *)
  JSON_parse : string -> JsVal + string;
  (** What the network answers to a call, given the calls made before it. *)
  server : list FetchCall -> FetchCall -> FetchScript;
  (** [new Date(t).toISOString()] for a time value [t] in milliseconds. *)
  toISOString : Z -> string;
}.

Section Api.

Variable env : Platform.

(** [fetch(url, init)] *)
Definition fetch (url : string) (init : FetchInit) : Async LiveResponse :=
  fun w =>
    let call := mkCall url init in
    await (init_signal init)
      match server env (fetched w) call with
      | NoResponse => None
      | TransportFailure d name message => Some (d, Rejected (js_error name message))
      | Responds d r => Some (d, Resolved (mkLive r (init_signal init)))
      end
      (mkWorld (now w) (fresh w) (timers w) (aborted w) (fetched w ++ [call])).

(** [response.text()] *)
Definition response_text (response : LiveResponse) : Async JsVal :=
  await (resp_signal response)
    match body (resp response) with
    | BodyNever => None
    | BodyFailure d name message => Some (d, Rejected (js_error name message))
    | BodyText d text => Some (d, Resolved (JStr text))
    end.

(** [response.json()] *)
Definition response_json (response : LiveResponse) : Async JsVal :=
  await (resp_signal response)
    match body (resp response) with
    | BodyNever => None
    | BodyFailure d name message => Some (d, Rejected (js_error name message))
    | BodyText d text =>
        Some (d, match JSON_parse env text with
                 | inl v => Resolved v
                 | inr message => Rejected (js_error "SyntaxError" message)
                 end)
    end.

(** [contentType?.includes("application/json")] *)
Definition is_json (contentType : option string) : bool :=
  match contentType with
  | Some ct => includes ct "application/json"
  | None => false
  end.

(** [{ "Content-Type": "application/json", ...(options.headers || {}) }] *)
Definition merged_headers (options : RequestOptions) : gmap string JsVal :=
  from_option own_properties ∅ (opt_headers options)
    ∪ {[ "Content-Type" := JStr "application/json" ]}.

(** The [ApiError] object literal of the non-2xx branch. *)
Definition http_error (response : Response) (data : JsVal) : JsVal :=
  JObj [("message", js_or (optional_member data "message") (JStr "Something went wrong"));
        ("status", JNum (status response));
        ("details", data)].

Definition timeout_error : JsVal :=
  JObj [("message", JStr "Request timeout. Please try again.")].

(** The [catch] block of [request]. *)
Definition on_error {A} (error : JsVal) : Async A :=
  match member error "name" with
  | None => throw (js_error "TypeError" "Cannot read properties of undefined")
  | Some name =>
      if strict_eq_string name "AbortError" then throw timeout_error
      else throw error
  end.

Definition request (path : string) (options : RequestOptions) : Async JsVal :=
  controller ← new_AbortController;
  let timeout := default 10000%N (opt_timeout options) in
  timeoutId ← setTimeout_abort controller timeout;
  try_catch_finally
    (response ← fetch (BASE_URL env +:+ path)
                  {| init_method := opt_method options;
                     init_body := opt_body options;
                     init_timeout := opt_timeout options;
                     init_extra := opt_extra options;
                     init_signal := controller;
                     init_headers := merged_headers options |};
     let contentType := content_type (resp response) in
     data ← (if is_json contentType then response_json response
             else response_text response);
     if negb (ok (resp response))
     then throw (http_error (resp response) data)
     else mret data)
    on_error
    (clearTimeout timeoutId).

(** [{ method: m, ...options }] (with [b] absent) and
    [{ method: m, body: b, ...options }] *)
Definition with_method (m : string) (b : Property string)
    (options : option RequestOptions) : RequestOptions :=
  spread (mkRequestOptions (Own (Some m)) b Absent Absent Absent ∅)
    (default no_options options).

Definition api_get (path : string) (options : option RequestOptions) : Async JsVal :=
  request path (with_method "GET" Absent options).

Definition api_post (path : string) (body : JsVal) (options : option RequestOptions)
  : Async JsVal :=
  request path (with_method "POST" (Own (JSON_stringify env body)) options).

Definition api_put (path : string) (body : JsVal) (options : option RequestOptions)
  : Async JsVal :=
  request path (with_method "PUT" (Own (JSON_stringify env body)) options).

Definition api_patch (path : string) (body : JsVal) (options : option RequestOptions)
  : Async JsVal :=
  request path (with_method "PATCH" (Own (JSON_stringify env body)) options).

Definition api_delete (path : string) (options : option RequestOptions) : Async JsVal :=
  request path (with_method "DELETE" Absent options).

End Api.

(** ** [src/services/registration.ts] *)

Record RegistrationPayload : Type := mkPayload {
  name : string;
  email : string;
  phone : string;
  education : string;
  address : string;
  courseId : string;
  registrationDate : string;
}.

(** The payload as the object literal handed to [api.post]. *)
Definition payload_object (p : RegistrationPayload) : JsVal :=
  JObj [("name", JStr (name p));
        ("email", JStr (email p));
        ("phone", JStr (phone p));
        ("education", JStr (education p));
        ("address", JStr (address p));
        ("courseId", JStr (courseId p));
        ("registrationDate", JStr (registrationDate p))].

Definition createRegistration (env : Platform) (payload : RegistrationPayload)
  : Async JsVal :=
  api_post env "/registrations" (payload_object payload) None.

(** ** The registration modal ([RegistrationModal] and its [handleSubmit]) *)

(** [String.prototype.trim]: white space and line terminators among the
    code units below 256 (TAB, LF, VT, FF, CR, SP, NBSP). *)
Definition is_space (a : ascii) : bool :=
  let n := N_of_ascii a in
  ((9 <=? n) && (n <=? 13) || (n =? 32) || (n =? 160))%N.

Fixpoint trim_start (s : string) : string :=
  match s with
  | EmptyString => EmptyString
  | String a s' => if is_space a then trim_start s' else s
  end.

Fixpoint trim_end (s : string) : string :=
  match s with
  | EmptyString => EmptyString
  | String a s' =>
      match trim_end s' with
      | EmptyString => if is_space a then EmptyString else String a EmptyString
      | kept => String a kept
      end
  end.

Definition trim (s : string) : string := trim_end (trim_start s).

Record FormState : Type := mkForm {
  form_name : string;
  form_email : string;
  form_phone : string;
  form_education : string;
  form_address : string;
  form_courseId : string;
}.

Inductive Field : Type :=
| FName | FEmail | FPhone | FEducation | FAddress | FCourseId.

(** [{ ...p, [key]: value }] *)
Definition set_field (key : Field) (value : string) (p : FormState) : FormState :=
  match key with
  | FName => mkForm value (form_email p) (form_phone p) (form_education p)
               (form_address p) (form_courseId p)
  | FEmail => mkForm (form_name p) value (form_phone p) (form_education p)
                (form_address p) (form_courseId p)
  | FPhone => mkForm (form_name p) (form_email p) value (form_education p)
                (form_address p) (form_courseId p)
  | FEducation => mkForm (form_name p) (form_email p) (form_phone p) value
                    (form_address p) (form_courseId p)
  | FAddress => mkForm (form_name p) (form_email p) (form_phone p)
                  (form_education p) value (form_courseId p)
  | FCourseId => mkForm (form_name p) (form_email p) (form_phone p)
                   (form_education p) (form_address p) value
  end.

(** The page between two events: the React state of the modal ([form],
    [submitting]) and of the dashboard ([modalOpen]), the
    [createRegistration] calls made and those not yet settled, what the
    handlers showed or logged, and the platform the calls run on. *)
Record Ui : Type := mkUi {
  form : FormState;
  submitting : bool;
  modalOpen : bool;
  calls : list RegistrationPayload;
  inflight : list RegistrationPayload;
  alerts : list string;
  console : list (string * JsVal);
  net : World;
}.

(** The platform when the page is loaded. *)
Definition boot : World := mkWorld 0 0 [] [] [].

Inductive Event : Type :=
| Submit (clock : Z)                    (* the form's submit event *)
| Settled (result : Completion JsVal)   (* the oldest pending call settles *)
| Change (key : Field) (value : string) (* [onChange(key)] *)
| Dismiss                               (* [onClose] from a button *)
| Open (defaultCourseId : string).      (* [openCourseForm], [openSessionForm] *)

(** A mounted modal: the state React holds ([live]) and the state of the
    last render ([seen]), which is what the handlers of that render closed
    over and what the page shows. *)
Record Mounted : Type := mkMounted {
  live : Ui;
  seen : Ui;
}.

Inductive Action : Type :=
| Fire (ev : Event)   (* an event reaches the handlers of the last render *)
| Render.             (* React renders the component again *)

Section Modal.

Variable env : Platform.

(** The object literal [registrationData] built at time [clock]. *)
Definition registrationData (clock : Z) (f : FormState) : RegistrationPayload :=
  {| name := trim (form_name f);
     email := trim (form_email f);
     phone := trim (form_phone f);
     education := trim (form_education f);
     address := trim (form_address f);
     courseId := form_courseId f;
     registrationDate := toISOString env clock |}.

(** [handleSubmit] up to its [await], as created by the render of [seen]
    and acting on the state [ui]: the guard on the [submitting] of that
    render, the payload from the [form] of that render,
    [setSubmitting(true)] and the call of [createRegistration], which is
    run on the platform ([e.preventDefault()] changes nothing that is
    modelled). *)
Definition handleSubmit (seen : Ui) (clock : Z) (ui : Ui) : Ui :=
  if submitting seen then ui
  else
    let data := registrationData clock (form seen) in
    mkUi (form ui) true (modalOpen ui)
      (calls ui ++ [data]) (inflight ui ++ [data])
      (alerts ui) (console ui)
      (snd (createRegistration env data (net ui))).

(** [handleSubmit] from its [await] on: the rest of the [try] block, the
    [catch] block and the [finally] block. *)
Definition handleSubmit_settled (result : Completion JsVal) (ui : Ui) : Ui :=
  match result with
  | Resolved saved =>
      mkUi (form ui) false false (calls ui) (inflight ui)
        (alerts ui ++ ["Registration saved successfully!"])
        (console ui ++ [("Saved:", saved)]) (net ui)
  | Rejected err =>
      mkUi (form ui) false (modalOpen ui) (calls ui) (inflight ui)
        (alerts ui ++ ["Failed to submit. Check console."])
        (console ui ++ [("API Error:", err)]) (net ui)
  | Pending => ui
  end.

(** One event, handled by the handlers of the render of [seen] and acting
    on the state [ui].  A closed modal renders nothing
    ([if (!open) return null]), so it receives no form event; the
    continuation of [handleSubmit] and the functional update of [onChange]
    read no state of their render. *)
Definition handle (seen ui : Ui) (ev : Event) : Ui :=
  match ev with
  | Submit clock => if modalOpen seen then handleSubmit seen clock ui else ui
  | Settled result =>
      match result, inflight ui with
      | Pending, _ | _, [] => ui
      | _, _ :: pending =>
          handleSubmit_settled result
            (mkUi (form ui) (submitting ui) (modalOpen ui) (calls ui) pending
               (alerts ui) (console ui) (net ui))
      end
  | Change key value =>
      if modalOpen seen
      then mkUi (set_field key value (form ui)) (submitting ui) (modalOpen ui)
             (calls ui) (inflight ui) (alerts ui) (console ui) (net ui)
      else ui
  | Dismiss =>
      mkUi (form ui) (submitting ui) false (calls ui) (inflight ui)
        (alerts ui) (console ui) (net ui)
  | Open defaultCourseId =>
      mkUi (set_field FCourseId defaultCourseId (form ui)) (submitting ui) true
        (calls ui) (inflight ui) (alerts ui) (console ui) (net ui)
  end.

(** One step of a mounted modal: an event reaches the handlers of the
    last render, or the component is rendered from its state. *)
Definition react (m : Mounted) (a : Action) : Mounted :=
  match a with
  | Fire ev => mkMounted (handle (seen m) (live m) ev) (seen m)
  | Render => mkMounted (live m) (live m)
  end.

Definition react_all (m : Mounted) (acts : list Action) : Mounted :=
  fold_left react acts m.

(** The component as React has rendered it from the state [ui]. *)
Definition rendered (ui : Ui) : Mounted := mkMounted ui ui.

(** A render of the state [ui], then one event on the handlers of that
    render. *)
Definition step (ui : Ui) (ev : Event) : Ui := live (react (rendered ui) (Fire ev)).

Definition run (ui : Ui) (evs : list Event) : Ui := fold_left step evs ui.

(** The modal as first opened with [defaultCourseId]. *)
Definition initial (defaultCourseId : string) : Ui :=
  mkUi (mkForm "" "" "" "" "" defaultCourseId) false true [] [] [] [] boot.

End Modal.

(** Every submit event of [acts] reaches a render made after the submit
    event before it; [rendered] tells whether the component has been
    rendered since the last submit event. *)
Fixpoint render_between_submits (rendered : bool) (acts : list Action) : bool :=
  match acts with
  | [] => true
  | Render :: rest => render_between_submits true rest
  | Fire (Submit _) :: rest => rendered && render_between_submits false rest
  | Fire _ :: rest => render_between_submits rendered rest
  end.

(** The actions of a page on which React renders before every event. *)
Definition render_each (evs : list Event) : list Action :=
  flat_map (fun ev => [Render; Fire ev]) evs.

(** ** A concrete platform for the examples *)

Definition dquote : string := String "034"%char EmptyString.

Definition hex_digit (n : N) : ascii :=
  ascii_of_N (if (n <? 10)%N then 48 + n else 87 + n).

(** The escape of one code unit inside a JSON string literal. *)
Definition json_escape (a : ascii) : string :=
  let n := N_of_ascii a in
  if (n =? 34)%N then "\" +:+ dquote
  else if (n =? 92)%N then "\\"
  else if (n =? 8)%N then "\b"
  else if (n =? 9)%N then "\t"
  else if (n =? 10)%N then "\n"
  else if (n =? 12)%N then "\f"
  else if (n =? 13)%N then "\r"
  else if (n <? 32)%N
       then "\u00" +:+ String (hex_digit (n / 16)) (String (hex_digit (n mod 16)) EmptyString)
  else String a EmptyString.

Fixpoint json_escape_all (s : string) : string :=
  match s with
  | EmptyString => EmptyString
  | String a s' => json_escape a +:+ json_escape_all s'
  end.

Definition json_quote (s : string) : string :=
  dquote +:+ json_escape_all s +:+ dquote.

Fixpoint join (sep : string) (parts : list string) : string :=
  match parts with
  | [] => EmptyString
  | [x] => x
  | x :: rest => x +:+ sep +:+ join sep rest
  end.

(** [JSON.stringify] without indentation on the values of [JsVal]. *)
Fixpoint json_text (v : JsVal) : option string :=
  match v with
  | JUndefined => None
  | JNull => Some "null"
  | JBool b => Some (if b then "true" else "false")
  | JNum n => Some (pretty n)
  | JStr s => Some (json_quote s)
  | JArr items =>
      Some ("[" +:+ join "," (List.map (fun x => default "null" (json_text x)) items) +:+ "]")
  | JObj fields =>
      Some ("{" +:+
            join "," (List.flat_map
                        (fun kv => match json_text (snd kv) with
                                   | Some t => [json_quote (fst kv) +:+ ":" +:+ t]
                                   | None => []
                                   end) fields)
            +:+ "}")
  end.

(** A parser that knows the texts of the listed values, as a mocked
    response does; any other text is a SyntaxError. *)
Fixpoint parse_known (known : list JsVal) (text : string) : JsVal + string :=
  match known with
  | [] => inr "Unexpected token"
  | v :: rest =>
      if bool_decide (json_text v = Some text) then inl v else parse_known rest text
  end.

(** Decimal digits of [n], at least [width] of them. *)
Definition pad (width : nat) (n : Z) : string :=
  let digits := pretty (Z.abs n) in
  String.concat "" (replicate (width - String.length digits) "0") +:+ digits.

(** The proleptic Gregorian date and the UTC time of day of a time value,
    in the format of [Date.prototype.toISOString]. *)
Definition iso_text (t : Z) : string :=
  let day := (t / 86400000)%Z in
  let ms := (t mod 86400000)%Z in
  let z := (day + 719468)%Z in
  let era := (z / 146097)%Z in
  let doe := (z mod 146097)%Z in
  let yoe := ((doe - doe / 1460 + doe / 36524 - doe / 146096) / 365)%Z in
  let doy := (doe - (365 * yoe + yoe / 4 - yoe / 100))%Z in
  let mp := ((5 * doy + 2) / 153)%Z in
  let d := (doy - (153 * mp + 2) / 5 + 1)%Z in
  let m := (if mp <? 10 then mp + 3 else mp - 9)%Z in
  let y := (yoe + era * 400 + (if m <=? 2 then 1 else 0))%Z in
  let year :=
    if ((0 <=? y) && (y <=? 9999))%Z then pad 4 y
    else (if (y <? 0)%Z then "-" else "+") +:+ pad 6 y in
  year +:+ "-" +:+ pad 2 m +:+ "-" +:+ pad 2 d +:+ "T" +:+
  pad 2 (ms / 3600000) +:+ ":" +:+ pad 2 (ms / 60000 mod 60) +:+ ":" +:+
  pad 2 (ms / 1000 mod 60) +:+ "." +:+ pad 3 (ms mod 1000) +:+ "Z".

(** The platform of the examples: one scripted answer for every call. *)
Definition mock_env (known : list JsVal) (answer : FetchScript) : Platform :=
  mkPlatform "https://api.example.test" json_text (parse_known known)
    (fun _ _ => answer) iso_text.

Definition json_reply (code : Z) (v : JsVal) : Response :=
  mkResponse code (Some "application/json; charset=utf-8")
    (BodyText 5 (default "" (json_text v))).

Definition text_reply (code : Z) (text : string) : Response :=
  mkResponse code (Some "text/plain") (BodyText 5 text).

Definition json_response (code : Z) (v : JsVal) : FetchScript :=
  Responds 120 (json_reply code v).

Definition text_response (code : Z) (text : string) : FetchScript :=
  Responds 120 (text_reply code text).

Definition example_payload : RegistrationPayload :=
  {| name := "Asha Rao";
     email := "asha@example.test";
     phone := "9876543210";
     education := "B.Sc. Computer Science";
     address := "Pune, Kothrud";
     courseId := "flutter";
     registrationDate := "2026-11-03T05:20:00.123Z" |}.

(** [{ ...payload, id: 42 }] *)
Definition example_saved : JsVal :=
  match payload_object example_payload with
  | JObj fields => JObj (fields ++ [("id", JNum 42)])
  | other => other
  end.

(** A world at time 1000 with nothing pending. *)
Definition quiet : World := mkWorld 1000 0 [] [] [].

(** ** Derived descriptions used by the statements *)

(** Handles in use are below the next fresh one. *)
Definition wf (w : World) : Prop :=
  Forall (fun tm => (timer_id tm < fresh w)%nat /\ (aborts tm < fresh w)%nat) (timers w)
  /\ Forall (fun c => (c < fresh w)%nat) (aborted w).

(** Controller [c] is live and exactly one pending timer, due at
    [deadline], will abort it. *)
Definition armed (c id : nat) (deadline : N) (w : World) : Prop :=
  exists rest,
    timers w = mkTimer id deadline c :: rest
    /\ Forall (fun tm => aborts tm <> c) rest
    /\ c ∉ aborted w.

(** The call [request path options] makes when started in [w]. *)
Definition request_call (env : Platform) (path : string) (options : RequestOptions)
    (w : World) : FetchCall :=
  mkCall (BASE_URL env +:+ path)
    {| init_method := opt_method options;
       init_body := opt_body options;
       init_timeout := opt_timeout options;
       init_extra := opt_extra options;
       init_signal := fresh w;
       init_headers := merged_headers options |}.

(** The configured timeout: [options.timeout ?? 10000]. *)
Definition timeout_of (options : RequestOptions) : N :=
  default 10000%N (opt_timeout options).

(** The body of a response as [request] decodes it. *)
Definition decoded (env : Platform) (r : Response) (text : string) : Completion JsVal :=
  if is_json (content_type r)
  then match JSON_parse env text with
       | inl v => Resolved v
       | inr message => Rejected (js_error "SyntaxError" message)
       end
  else Resolved (JStr text).

(** How the [catch] block passes on a platform error. *)
Definition passed_on (name message : string) : JsVal :=
  if String.eqb name "AbortError" then timeout_error else js_error name message.

(** What a call settles as when the network follows [script] and the
    timer is set to [limit] milliseconds. *)
Definition settlement (env : Platform) (limit : N) (script : FetchScript)
  : Completion JsVal :=
  match script with
  | NoResponse => Rejected timeout_error
  | TransportFailure d name message =>
      if (d <=? limit)%N then Rejected (passed_on name message)
      else Rejected timeout_error
  | Responds d r =>
      if (d <=? limit)%N then
        match body r with
        | BodyNever => Rejected timeout_error
        | BodyFailure d' name message =>
            if (d + d' <=? limit)%N then Rejected (passed_on name message)
            else Rejected timeout_error
        | BodyText d' text =>
            if (d + d' <=? limit)%N then
              match decoded env r text with
              | Resolved data =>
                  if ok r then Resolved data else Rejected (http_error r data)
              | other => other
              end
            else Rejected timeout_error
        end
      else Rejected timeout_error
  end.

(** When the answer to a call is complete: the failure of the transport, or
    the end of the body ([None]: never). *)
Definition completion_time (script : FetchScript) : option N :=
  match script with
  | NoResponse => None
  | TransportFailure d _ _ => Some d
  | Responds d r =>
      match body r with
      | BodyNever => None
      | BodyFailure d' _ _ | BodyText d' _ => Some (d + d')%N
      end
  end.

(** The answer is not complete within [limit] milliseconds. *)
Definition overdue (limit : N) (script : FetchScript) : bool :=
  match completion_time script with
  | None => true
  | Some t => (limit <? t)%N
  end.

(** The message as the specification words it: the [message] field of the
    decoded body when present, the generic text otherwise. *)
Definition message_as_stated (data : JsVal) : JsVal :=
  match data with
  | JObj fields => default (JStr "Something went wrong") (assoc "message" fields)
  | _ => JStr "Something went wrong"
  end.

(** The message the code computes, by cases on the decoded body: the
    [message] field when it is present and truthy, the generic text when
    the body has no such field or the field is falsy (empty string, [0],
    [false], [null]). *)
Definition message_of (data : JsVal) : JsVal :=
  match data with
  | JObj fields =>
      match assoc "message" fields with
      | Some m => if truthy m then m else JStr "Something went wrong"
      | None => JStr "Something went wrong"
      end
  | _ => JStr "Something went wrong"
  end.

(** The call of [createRegistration] started with signal [signal]. *)
Definition registration_call (env : Platform) (payload : RegistrationPayload)
    (signal : nat) : FetchCall :=
  mkCall (BASE_URL env +:+ "/registrations")
    {| init_method := Some "POST";
       init_body := JSON_stringify env (payload_object payload);
       init_timeout := None;
       init_extra := ∅;
       init_signal := signal;
       init_headers := {[ "Content-Type" := JStr "application/json" ]} |}.

(** ** Trimming, described *)

Fixpoint all_space (s : string) : bool :=
  match s with
  | EmptyString => true
  | String a s' => is_space a && all_space s'
  end.

Definition starts_with_space (s : string) : bool :=
  match s with
  | EmptyString => false
  | String a _ => is_space a
  end.

Fixpoint ends_with_space (s : string) : bool :=
  match s with
  | EmptyString => false
  | String a s' =>
      match s' with
      | EmptyString => is_space a
      | String _ _ => ends_with_space s'
      end
  end.

(** [out] is [raw] without its leading and trailing white space. *)
Definition trimmed_from (raw out : string) : Prop :=
  exists before after,
    raw = before +:+ out +:+ after
    /\ all_space before = true /\ all_space after = true
    /\ starts_with_space out = false /\ ends_with_space out = false.

(** The payload as the specification words it: every string field
    trimmed, [courseId] included. *)
Definition payload_as_stated (env : Platform) (clock : Z) (f : FormState)
  : RegistrationPayload :=
  {| name := trim (form_name f);
     email := trim (form_email f);
     phone := trim (form_phone f);
     education := trim (form_education f);
     address := trim (form_address f);
     courseId := trim (form_courseId f);
     registrationDate := toISOString env clock |}.

(** ** The platforms of the examples *)

Definition conflict_body : JsVal := JObj [("message", JStr "Email already registered")].
Definition blank_body : JsVal := JObj [("message", JStr "")].

Definition env_created : Platform :=
  mock_env [example_saved] (json_response 201 example_saved).
Definition env_conflict : Platform :=
  mock_env [conflict_body] (json_response 400 conflict_body).
Definition env_blank : Platform :=
  mock_env [blank_body] (json_response 400 blank_body).
Definition env_plain : Platform := mock_env [] (text_response 500 "Server Error").
Definition env_silent : Platform := mock_env [] NoResponse.
Definition env_offline : Platform :=
  mock_env [] (TransportFailure 30 "TypeError" "Failed to fetch").

(** ** Further descriptions: the world after a call *)

(** [w'] is [w] some time later: the clock has not gone back, no handle
    was created, no timer was added, aborted signals stay aborted and a
    signal newly aborted is the target of a timer of [w]. *)
Definition later (w w' : World) : Prop :=
  (now w <= now w')%N
  /\ fresh w' = fresh w
  /\ (forall tm, tm ∈ timers w' -> tm ∈ timers w)
  /\ (forall c, c ∈ aborted w -> c ∈ aborted w')
  /\ (forall c, c ∈ aborted w' ->
        c ∈ aborted w \/ exists tm, tm ∈ timers w /\ aborts tm = c)
  /\ fetched w' = fetched w.

(** The world of [request] once its controller and its timer exist and
    its call is logged. *)
Definition started (env : Platform) (path : string) (options : RequestOptions)
    (w : World) : World :=
  mkWorld (now w) (S (S (fresh w)))
    (mkTimer (S (fresh w)) (now w + timer_delay (timeout_of options))%N (fresh w)
       :: timers w)
    (aborted w)
    (fetched w ++ [request_call env path options w]).

(** The two texts [handleSubmit] shows with [alert]. *)
Definition success_text : string := "Registration saved successfully!".
Definition failure_text : string := "Failed to submit. Check console.".

(** ** The dashboard ([Dashboard], its catalog and the two ways to open
    the modal) *)

Inductive FormMode : Type :=
| ModeCourse     (* "course" *)
| ModeSession.   (* "session" *)

Record Course : Type := mkCourse {
  course_id : string;
  course_title : string;
  course_color : string;
  course_price : Z;
  course_points : list string;
}.

Record Session : Type := mkSession {
  session_id : string;
  session_title : string;
  session_courseId : string;
  session_dateText : string;
  session_timeText : string;
}.

(** The catalog of the source. *)
Definition courses : list Course :=
  [ mkCourse "flutter" "Flutter Development" "from-blue-500 to-cyan-400" 3000
      ["Mobile Apps"; "Firebase + API Basics"; "Live Project Practice";
       "Play Store Deployment Basics"];
    mkCourse "python" "Python Programming" "from-green-500 to-emerald-400" 3000
      ["Basic to Advanced"; "Projects + Logic Building"; "Interview Preparation";
       "Real-world Problem Solving"];
    mkCourse "c-programming" "C Programming" "from-orange-500 to-amber-400" 2000
      ["C Basics"; "DSA Foundation"; "Problem Solving Skills";
       "Pointers & Memory Concepts"] ].

Definition sessions : list Session :=
  [ mkSession "free-flutter" "Free Flutter Session" "flutter" "15-02-2026"
      "10 Am to 11 Am";
    mkSession "free-python" "Free Python Session" "python" "15-02-2026"
      "10 Am to 11 Am";
    mkSession "free-c" "Free C Programming Session" "c-programming" "15-02-2026"
      "10 Am to 11 Am" ].

(** The React state of [Dashboard] other than [modalOpen], which is kept
    with the modal in [Ui]. *)
Record Dashboard : Type := mkDashboard {
  mode : FormMode;
  selectedCourseId : string;
  heading : string;
  subHeading : string;
}.

Record Page : Type := mkPage {
  dash : Dashboard;
  modal : Ui;
}.

(** The points a course card lists, [course.points.slice(0, 4)], each with
    [isFourth], which puts the "Enroll Now" badge beside it. *)
Definition shown_points (points : list string) : list (string * bool) :=
  imap (fun i p => (p, Nat.eqb i 3)) (take 4 points).

(** The effect of the modal,
    [useEffect(() => { if (open) setForm(...) }, [open, defaultCourseId])],
    after a render in which the dependencies went from [was_open] and
    [was_default] to [modalOpen ui] and [defaultCourseId]: it runs when one
    of them changed and sets the course of the form when the modal is open. *)
Definition course_effect (was_open : bool) (was_default defaultCourseId : string)
    (ui : Ui) : Ui :=
  if Bool.eqb was_open (modalOpen ui) && String.eqb was_default defaultCourseId
  then ui
  else if modalOpen ui
       then mkUi (set_field FCourseId defaultCourseId (form ui)) (submitting ui)
              (modalOpen ui) (calls ui) (inflight ui) (alerts ui) (console ui) (net ui)
       else ui.

(** [setModalOpen(true)] *)
Definition opened (ui : Ui) : Ui :=
  mkUi (form ui) (submitting ui) true (calls ui) (inflight ui) (alerts ui) (console ui)
    (net ui).

Section Dashboard.

Variable env : Platform.

(** The rupee sign and the bullet of the two sub-headings: code units
    above 255, outside the strings modelled. *)
Variable rupee : string.
Variable bullet : string.

(** The catalog the component works on. *)
Variable catalog : list Course.

(** [courses.find((c) => c.id === courseId)] *)
Definition find_course (courseId : string) : option Course :=
  List.find (fun c => String.eqb (course_id c) courseId) catalog.

Definition openCourseForm (course : Course) (p : Page) : Page :=
  mkPage
    (mkDashboard ModeCourse (course_id course) (course_title course)
       ("Course Fees: " +:+ rupee +:+ pretty (course_price course)))
    (course_effect (modalOpen (modal p)) (selectedCourseId (dash p)) (course_id course)
       (opened (modal p))).

Definition openSessionForm (s : Session) (p : Page) : Page :=
  let course := find_course (session_courseId s) in
  mkPage
    (mkDashboard ModeSession (session_courseId s) (session_title s)
       (from_option course_title "" course +:+ " " +:+ bullet +:+ " " +:+
        session_dateText s +:+ " " +:+ bullet +:+ " " +:+ session_timeText s))
    (course_effect (modalOpen (modal p)) (selectedCourseId (dash p))
       (session_courseId s) (opened (modal p))).

(** The colour of a session card: [course?.color ?? "from-blue-600 to-cyan-500"]. *)
Definition session_color (s : Session) : string :=
  from_option course_color "from-blue-600 to-cyan-500" (find_course (session_courseId s)).

(** The first render: [useState(courses[0].id)] fails on an empty catalog
    ([None]); the modal is closed and its form holds the first course. *)
Definition initial_page : option Page :=
  match catalog with
  | [] => None
  | first :: _ =>
      Some (mkPage (mkDashboard ModeCourse (course_id first) "" "")
              (mkUi (mkForm "" "" "" "" "" (course_id first)) false false [] [] [] []
                 boot))
  end.

Inductive PageEvent : Type :=
| ClickCourse (course : Course)   (* a course card *)
| ClickSession (s : Session)      (* a session card *)
| InModal (ev : Event).           (* an event of the modal *)

(** One event of the page.  [Open] is not an event of the modal itself:
    the modal is opened by the two cards. *)
Definition page_step (p : Page) (ev : PageEvent) : Page :=
  match ev with
  | ClickCourse course => openCourseForm course p
  | ClickSession s => openSessionForm s p
  | InModal (Open _) => p
  | InModal ev => mkPage (dash p) (step env (modal p) ev)
  end.

Definition page_run (p : Page) (evs : list PageEvent) : Page :=
  fold_left page_step evs p.

(** What the rendered page can produce for a list of sessions: clicks on
    the cards of the catalog and of the sessions, and for the course select
    the value of one of its options. *)
Definition offered (shown : list Session) (ev : PageEvent) : Prop :=
  match ev with
  | ClickCourse course => course ∈ catalog
  | ClickSession s => s ∈ shown
  | InModal (Change FCourseId value) => value ∈ List.map course_id catalog
  | InModal _ => True
  end.

End Dashboard.

(** The course of the form and of the dashboard are ids of the catalog and
    so are the courses of the calls made, whose other fields are trimmed. *)
Definition catalog_bound (catalog : list Course) (p : Page) : Prop :=
  form_courseId (form (modal p)) ∈ List.map course_id catalog
  /\ selectedCourseId (dash p) ∈ List.map course_id catalog
  /\ Forall (fun data =>
               courseId data ∈ List.map course_id catalog
               /\ trim (name data) = name data
               /\ trim (email data) = email data
               /\ trim (phone data) = phone data
               /\ trim (education data) = education data
               /\ trim (address data) = address data)
       (calls (modal p)).

(** The guard of a mounted modal: the form is submitting exactly when a
    call is pending, at most one call is pending, and, when the component
    has been rendered since the last submit event ([fresh]), a submitting
    form is shown as submitting. *)
Definition guarded (fresh : bool) (m : Mounted) : Prop :=
  (submitting (live m) = true <-> inflight (live m) <> [])
  /\ (length (inflight (live m)) <= 1)%nat
  /\ (fresh = true -> submitting (live m) = true -> submitting (seen m) = true).

(** The requests fetched are the calls made, in order, one POST to
    "/registrations" each. *)
Definition logged (env : Platform) (ui : Ui) : Prop :=
  Forall2 (fun call data => exists signal, call = registration_call env data signal)
    (fetched (net ui)) (calls ui).

(** Every field of a payload is as [trim] leaves it. *)
Definition fully_trimmed (data : RegistrationPayload) : Prop :=
  trim (name data) = name data
  /\ trim (email data) = email data
  /\ trim (phone data) = phone data
  /\ trim (education data) = education data
  /\ trim (address data) = address data
  /\ trim (courseId data) = courseId data.

(** ** Further platforms and inputs of the examples *)

Definition env_abort_named : Platform :=
  mock_env [] (TransportFailure 30 "AbortError" "The user aborted a request.").

Definition token_headers : RequestOptions :=
  mkOptions None None
    (Some (HeadersRecord {[ "X-Token" := "abc"; "content-type" := "text/plain" ]}))
    None None ∅.


(** The UTF-8 bytes of the rupee sign and of the bullet. *)
Definition rupee_utf8 : string :=
  String "226"%char (String "130"%char (String "185"%char EmptyString)).
Definition bullet_utf8 : string :=
  String "226"%char (String "128"%char (String "162"%char EmptyString)).

(** The page of the source before any event. *)
Definition first_page : Page :=
  mkPage (mkDashboard ModeCourse "flutter" "" "")
    (mkUi (mkForm "" "" "" "" "" "flutter") false false [] [] [] [] boot).

Definition orphan_session : Session :=
  mkSession "free-rust" "Free Rust Session" "rust" "15-02-2026" "10 Am to 11 Am".

Definition typed_form : FormState :=
  mkForm "  Asha Rao " "asha@example.test" "9876543210" "B.Sc." "Pune" "flutter".

Definition typed_ui : Ui := mkUi typed_form false true [] [] [] [] boot.

(** ** Strings *)

Lemma append_cons (a : ascii) (s t : string) : String a s +:+ t = String a (s +:+ t).
Proof. reflexivity. Qed.

Lemma append_empty (t : string) : EmptyString +:+ t = t.
Proof. reflexivity. Qed.

Lemma starts_with_spec (s prefix : string) :
  starts_with s prefix = true <-> exists rest, s = prefix +:+ rest.
Proof.
  revert s. induction prefix as [|a prefix IH]; intros s.
  - destruct s; (split; [intros _; eexists; reflexivity|reflexivity]).
  - destruct s as [|b s]; cbn [starts_with].
    + split; [discriminate|]. intros [rest H]. rewrite append_cons in H. discriminate.
    + rewrite andb_true_iff, IH. split.
      * intros [Hab [rest ->]]. apply Ascii.eqb_eq in Hab as ->.
        exists rest. reflexivity.
      * intros [rest H]. rewrite append_cons in H. injection H as -> ->.
        split; [apply Ascii.eqb_refl|]. exists rest. reflexivity.
Qed.

(** [includes] is the substring test. *)
Lemma includes_spec (s needle : string) :
  includes s needle = true <-> exists before after, s = before +:+ needle +:+ after.
Proof.
  induction s as [|a s IH]; cbn [includes]; rewrite orb_true_iff, starts_with_spec.
  - split.
    + intros [[rest H]|H]; [|discriminate]. exists EmptyString, rest. exact H.
    + intros (before & after & H). left. exists after.
      destruct before; [exact H|]. rewrite append_cons in H. discriminate.
  - rewrite IH. split.
    + intros [[rest H]|(before & after & H)].
      * exists EmptyString, rest. exact H.
      * exists (String a before), after. rewrite append_cons, H. reflexivity.
    + intros (before & after & H). destruct before as [|b before].
      * left. exists after. exact H.
      * right. rewrite append_cons in H. injection H as -> ->.
        exists before, after. reflexivity.
Qed.

(** ** Timers and signals *)

Lemma abort_time_unrelated (c : nat) (ts : list Timer) :
  Forall (fun tm => aborts tm <> c) ts -> abort_time c ts = None.
Proof.
  induction 1 as [|tm ts Hne _ IH]; simpl; [reflexivity|].
  destruct (Nat.eqb_spec (aborts tm) c); [contradiction|exact IH].
Qed.

Lemma armed_abort_time (c id : nat) (deadline : N) (w : World) :
  armed c id deadline w -> abort_time c (timers w) = Some deadline.
Proof.
  intros (rest & -> & Hrest & _). simpl.
  rewrite Nat.eqb_refl, (abort_time_unrelated _ _ Hrest). reflexivity.
Qed.

Lemma await_armed {A} (c id : nat) (deadline : N) (op : option (N * Completion A))
    (w : World) :
  armed c id deadline w ->
  await c op w =
    match op with
    | Some (d, r) =>
        if N.leb (now w + d) deadline then (r, elapse true (now w + d)%N w)
        else (Rejected AbortError, elapse false deadline w)
    | None => (Rejected AbortError, elapse false deadline w)
    end.
Proof.
  intros Harmed. unfold await.
  rewrite (armed_abort_time _ _ _ _ Harmed).
  destruct Harmed as (_ & _ & _ & Hlive).
  rewrite bool_decide_eq_false_2 by exact Hlive.
  destruct op as [[d r]|]; reflexivity.
Qed.

Lemma Forall_list_filter {A} (P : A -> Prop) (f : A -> bool) (l : list A) :
  Forall P l -> Forall P (List.filter f l).
Proof.
  induction 1 as [|x l Hx _ IH]; simpl; [constructor|].
  destruct (f x); [constructor; assumption|assumption].
Qed.

Lemma fired_unrelated (c : nat) (f : Timer -> bool) (ts : list Timer) :
  Forall (fun tm => aborts tm <> c) ts ->
  c ∉ List.map aborts (List.filter f ts).
Proof.
  induction 1 as [|tm ts Hne _ IH]; simpl; [apply not_elem_of_nil|].
  destruct (f tm); simpl; [|exact IH].
  apply not_elem_of_cons. split; [congruence|exact IH].
Qed.

Lemma armed_elapse (c id : nat) (deadline t : N) (w : World) :
  armed c id deadline w -> (t <= deadline)%N ->
  armed c id deadline (elapse true t w).
Proof.
  intros (rest & Hts & Hrest & Hlive) Hle.
  exists (List.filter (fun tm => negb (due true t tm)) rest).
  unfold elapse; simpl. rewrite Hts. simpl.
  replace (deadline <? t)%N with false by (symmetry; apply N.ltb_ge; exact Hle).
  simpl. split; [reflexivity|]. split.
  - apply Forall_list_filter, Hrest.
  - rewrite elem_of_app. intros [Hin|Hin]; [|exact (Hlive Hin)].
    exact (fired_unrelated c _ rest Hrest Hin).
Qed.

(** After [new AbortController()] and [setTimeout] the controller is armed. *)
Lemma armed_fresh (w : World) (ms : N) (log : list FetchCall) :
  wf w ->
  armed (fresh w) (S (fresh w)) (now w + ms)
    (mkWorld (now w) (S (S (fresh w)))
       (mkTimer (S (fresh w)) (now w + ms) (fresh w) :: timers w) (aborted w) log).
Proof.
  intros [Hts Hab]. exists (timers w). simpl. split; [reflexivity|]. split.
  - eapply Forall_impl; [exact Hts|]. simpl. intros tm [_ H]. lia.
  - intros Hin. rewrite Forall_forall in Hab. specialize (Hab _ Hin). lia.
Qed.

(** ** Running [request] *)

Lemma leb_shift (a d limit : N) : N.leb (a + d) (a + limit) = N.leb d limit.
Proof.
  destruct (N.leb_spec d limit) as [H|H].
  - apply N.leb_le. lia.
  - apply N.leb_gt. lia.
Qed.

Lemma leb_shift2 (a d d' limit : N) :
  N.leb (a + d + d') (a + limit) = N.leb (d + d') limit.
Proof. rewrite <- N.add_assoc. apply leb_shift. Qed.

Lemma fetched_await {A} (c : nat) (op : option (N * Completion A)) (w : World) :
  fetched (snd (await c op w)) = fetched w.
Proof.
  unfold await.
  destruct (bool_decide (c ∈ aborted w)); [reflexivity|].
  destruct op as [[d r]|], (abort_time c (timers w)) as [deadline|];
    try destruct (N.leb (now w + d) deadline); reflexivity.
Qed.

Section Request.

Variable env : Platform.

#[local] Arguments elapse : simpl never.
#[local] Arguments N.add : simpl never.
#[local] Arguments N.leb : simpl never.

Lemma on_error_platform {A} (name message : string) (w : World) :
  on_error (A := A) (js_error name message) w = (Rejected (passed_on name message), w).
Proof.
  unfold on_error, passed_on, js_error, member; simpl.
  destruct (String.eqb name "AbortError"); reflexivity.
Qed.

Lemma request_run (path : string) (options : RequestOptions) (w : World) :
  wf w ->
  fst (request env path options w)
    = settlement env (timer_delay (timeout_of options))
        (server env (fetched w) (request_call env path options w)).
Proof.
  intros Hwf.
  unfold request, mbind, async_bind, new_AbortController, setTimeout_abort.
  cbn beta iota.
  fold (timeout_of options).
  unfold try_catch_finally, fetch.
  cbn [init_signal fetched now fresh timers aborted].
  fold (request_call env path options w).
  pose proof (armed_fresh w (timer_delay (timeout_of options))
                (fetched w ++ [request_call env path options w]) Hwf) as Harmed.
  rewrite (await_armed _ _ _ _ _ Harmed).
  cbn [now].
  destruct (server env (fetched w) (request_call env path options w))
    as [|d name message|d r]; unfold settlement.
  - reflexivity.
  - rewrite leb_shift. destruct (N.leb d (timer_delay (timeout_of options))).
    + rewrite on_error_platform. reflexivity.
    + reflexivity.
  - rewrite leb_shift. destruct (N.leb_spec d (timer_delay (timeout_of options))) as [Hd|Hd];
      [|reflexivity].
    apply (armed_elapse _ _ _ (now w + d)%N) in Harmed; [|cbn [now]; lia].
    cbn [now] in Harmed.
    set (w1 := elapse true (now w + d)%N _) in *.
    cbn [resp content_type].
    unfold decoded.
    assert (Hnow : now w1 = (now w + d)%N) by reflexivity.
    clearbody w1.
    destruct (is_json (content_type r));
      unfold response_json, response_text; cbn [resp resp_signal body];
      rewrite (await_armed _ _ _ _ _ Harmed), Hnow;
      destruct (body r) as [|d' name message|d' text];
      try rewrite leb_shift2;
      try destruct (N.leb (d + d') (timer_delay (timeout_of options)));
      try reflexivity;
      try (rewrite on_error_platform; reflexivity).
    + destruct (JSON_parse env text) as [v|message].
      * destruct (ok r); reflexivity.
      * rewrite on_error_platform. reflexivity.
    + destruct (ok r); reflexivity.
Qed.

Lemma on_error_world {A} (error : JsVal) (w : World) :
  snd (on_error (A := A) error w) = w.
Proof.
  unfold on_error. destruct (member error "name") as [name|]; [|reflexivity].
  destruct (strict_eq_string name "AbortError"); reflexivity.
Qed.

(** Every run of [request] calls [fetch] once. *)
Lemma request_log (path : string) (options : RequestOptions) (w : World) :
  fetched (snd (request env path options w))
    = (fetched w ++ [request_call env path options w])%list.
Proof.
  unfold request, mbind, async_bind, new_AbortController, setTimeout_abort.
  cbn beta iota.
  unfold try_catch_finally, fetch.
  cbn [init_signal fetched now fresh timers aborted].
  fold (request_call env path options w).
  match goal with
  | |- context [await ?c ?op ?w0] =>
      pose proof (fetched_await c op w0) as Hlog;
      destruct (await c op w0) as [[response|e|] w1]
  end; cbn [snd fetched] in Hlog.
  - match goal with
    | |- context [(if ?b then ?f else ?g) w1] =>
        assert (Hbody : fetched (snd ((if b then f else g) w1)) = fetched w1)
          by (destruct b; apply fetched_await);
        destruct ((if b then f else g) w1) as [[data|e|] w2]
    end; cbn [snd] in Hbody.
    + destruct (negb (ok (resp response))); cbn; congruence.
    + pose proof (on_error_world (A := JsVal) e w2) as Hw.
      destruct (on_error e w2) as [[?|?|] w3]; cbn in Hw |- *; congruence.
    + cbn. congruence.
  - pose proof (on_error_world (A := JsVal) e w1) as Hw.
    destruct (on_error e w1) as [[?|?|] w3]; cbn in Hw |- *; congruence.
  - cbn. congruence.
Qed.

(** The timer makes every call settle. *)
Lemma settlement_settles (limit : N) (script : FetchScript) :
  settlement env limit script <> Pending.
Proof.
  unfold settlement, decoded.
  destruct script as [|d name message|d r]; try discriminate.
  - destruct (N.leb d limit); discriminate.
  - destruct (N.leb d limit); [|discriminate].
    destruct (body r) as [|d' name message|d' text]; [discriminate| |];
      (destruct (N.leb (d + d') limit); [|discriminate]); [discriminate|].
    destruct (is_json (content_type r)); [destruct (JSON_parse env text)|];
      try discriminate; destruct (ok r); discriminate.
Qed.

Lemma request_settles (path : string) (options : RequestOptions) (w : World) :
  wf w -> fst (request env path options w) <> Pending.
Proof.
  intros Hwf. rewrite (request_run path options w Hwf). apply settlement_settles.
Qed.

(** The [finally] block: once the call has settled its timer is gone. *)
Lemma request_clears_timer (path : string) (options : RequestOptions) (w : World) :
  fst (request env path options w) <> Pending ->
  Forall (fun tm => timer_id tm <> S (fresh w))
    (timers (snd (request env path options w))).
Proof.
  unfold request, mbind, async_bind, new_AbortController, setTimeout_abort.
  cbn beta iota. unfold try_catch_finally.
  match goal with
  | |- context [let (c, w') := ?caught in _] => destruct caught as [[data|e|] w1]
  end; [| |intros H; contradiction H; reflexivity];
    intros _; cbn; apply List.Forall_forall; intros tm Hin;
    apply List.filter_In in Hin as [_ Hid];
    apply negb_true_iff, Nat.eqb_neq in Hid; exact Hid.
Qed.

End Request.

Lemma armed_fires (c id : nat) (deadline : N) (w : World) :
  armed c id deadline w -> c ∈ aborted (elapse false deadline w).
Proof.
  intros (rest & Hts & _). unfold elapse; simpl. rewrite Hts. simpl.
  rewrite N.leb_refl. simpl. apply elem_of_cons. left. reflexivity.
Qed.

Section Overdue.

Variable env : Platform.

#[local] Arguments elapse : simpl never.
#[local] Arguments N.add : simpl never.
#[local] Arguments N.leb : simpl never.
#[local] Arguments N.ltb : simpl never.

(** A call whose answer is overdue is aborted by its timer. *)
Lemma request_overdue (path : string) (options : RequestOptions) (w : World) :
  wf w ->
  overdue (timer_delay (timeout_of options))
    (server env (fetched w) (request_call env path options w)) = true ->
  fresh w ∈ aborted (snd (request env path options w)).
Proof.
  intros Hwf.
  unfold request, mbind, async_bind, new_AbortController, setTimeout_abort.
  cbn beta iota.
  fold (timeout_of options).
  unfold try_catch_finally, fetch.
  cbn [init_signal fetched now fresh timers aborted].
  fold (request_call env path options w).
  pose proof (armed_fresh w (timer_delay (timeout_of options))
                (fetched w ++ [request_call env path options w]) Hwf) as Harmed.
  rewrite (await_armed _ _ _ _ _ Harmed).
  cbn [now].
  unfold overdue, completion_time.
  destruct (server env (fetched w) (request_call env path options w))
    as [|d name message|d r].
  - intros _. cbn. apply (armed_fires _ _ _ _ Harmed).
  - intros Hlate. apply N.ltb_lt in Hlate.
    rewrite leb_shift.
    replace (N.leb d (timer_delay (timeout_of options))) with false
      by (symmetry; apply N.leb_gt; exact Hlate).
    cbn. apply (armed_fires _ _ _ _ Harmed).
  - intros Hlate. rewrite leb_shift.
    destruct (N.leb_spec d (timer_delay (timeout_of options))) as [Hd|Hd];
      [|cbn; apply (armed_fires _ _ _ _ Harmed)].
    pose proof (armed_elapse _ _ _ (now w + d)%N _ Harmed) as Harmed1.
    cbn [now] in Harmed1. specialize (Harmed1 ltac:(lia)).
    set (w1 := elapse true (now w + d)%N _) in *.
    assert (Hnow : now w1 = (now w + d)%N) by reflexivity.
    clearbody w1. clear Harmed.
    cbn [resp content_type].
    destruct (is_json (content_type r));
      unfold response_json, response_text; cbn [resp resp_signal body];
      rewrite (await_armed _ _ _ _ _ Harmed1), Hnow;
      destruct (body r) as [|d' name message|d' text];
      try (apply N.ltb_lt in Hlate; rewrite leb_shift2;
           replace (N.leb (d + d') (timer_delay (timeout_of options))) with false
             by (symmetry; apply N.leb_gt; exact Hlate));
      cbn; apply (armed_fires _ _ _ _ Harmed1).
Qed.

End Overdue.

(** ** The message of an HTTP failure *)

Lemma js_or_message (data : JsVal) :
  js_or (optional_member data "message") (JStr "Something went wrong") = message_of data.
Proof.
  destruct data as [| | | | |items|fields]; try reflexivity.
  unfold optional_member, member, message_of; simpl.
  destruct (assoc "message" fields) as [m|]; reflexivity.
Qed.

Lemma settlement_overdue (env : Platform) (limit : N) (script : FetchScript) :
  overdue limit script = true -> settlement env limit script = Rejected timeout_error.
Proof.
  unfold overdue, completion_time, settlement.
  destruct script as [|d name message|d r]; [reflexivity| |].
  - intros H. apply N.ltb_lt in H.
    replace (d <=? limit)%N with false by (symmetry; apply N.leb_gt; exact H).
    reflexivity.
  - destruct (d <=? limit)%N; [|reflexivity].
    destruct (body r) as [|d' name message|d' text]; [reflexivity| |];
      intros H; apply N.ltb_lt in H;
      replace (d + d' <=? limit)%N with false by (symmetry; apply N.leb_gt; exact H);
      reflexivity.
Qed.

Lemma settlement_body (env : Platform) (limit d d' : N) (r : Response) (text : string) :
  body r = BodyText d' text -> (d + d' <= limit)%N ->
  settlement env limit (Responds d r)
    = match decoded env r text with
      | Resolved data => if ok r then Resolved data else Rejected (http_error r data)
      | other => other
      end.
Proof.
  intros Hbody Hle. unfold settlement. rewrite Hbody.
  replace (d <=? limit)%N with true by (symmetry; apply N.leb_le; lia).
  replace (d + d' <=? limit)%N with true by (symmetry; apply N.leb_le; lia).
  reflexivity.
Qed.

Lemma passed_on_other (name message : string) :
  name <> "AbortError" -> passed_on name message = js_error name message.
Proof.
  intros Hne. unfold passed_on.
  destruct (String.eqb_spec name "AbortError"); [contradiction|reflexivity].
Qed.

(** A timer never waits longer than the delay it was given, and waits
    exactly that long for delays below 2^31 ms. *)
Lemma timer_delay_le (ms : N) : (timer_delay ms <= ms)%N.
Proof.
  unfold timer_delay. destruct (N.ltb_spec ms 2147483648); lia.
Qed.

Lemma timer_delay_small (ms : N) : (ms < 2147483648)%N -> timer_delay ms = ms.
Proof.
  intros H. unfold timer_delay. apply N.ltb_lt in H. rewrite H. reflexivity.
Qed.

Lemma overdue_sooner (limit sooner : N) (script : FetchScript) :
  (sooner <= limit)%N -> overdue limit script = true -> overdue sooner script = true.
Proof.
  unfold overdue. destruct (completion_time script) as [t|]; [|reflexivity].
  intros Hle Hlate. apply N.ltb_lt in Hlate. apply N.ltb_lt. lia.
Qed.

(** ** The statements about [request] *)

Section RequestClaims.

Variable env : Platform.

(** C2 (amended): a response outside 2xx whose body was read and decoded
    before the timer of the call fires makes [request] reject with an
    [ApiError] whose [message] is the [message] field of the decoded body
    when that field is present and truthy and "Something went wrong"
    otherwise, whose [status] is the HTTP status and whose [details] is
    the whole decoded body. *)
Theorem request_http_failure (path : string) (options : RequestOptions) (w : World)
    (d d' : N) (r : Response) (text : string) (data : JsVal) :
  wf w ->
  server env (fetched w) (request_call env path options w) = Responds d r ->
  body r = BodyText d' text ->
  (d + d' <= timer_delay (timeout_of options))%N ->
  decoded env r text = Resolved data ->
  ok r = false ->
  fst (request env path options w)
    = Rejected (JObj [("message", message_of data);
                      ("status", JNum (status r));
                      ("details", data)]).
Proof.
  intros Hwf Hscript Hbody Hle Hdata Hok.
  rewrite (request_run env path options w Hwf), Hscript.
  rewrite (settlement_body env _ d d' r text Hbody Hle), Hdata, Hok.
  unfold http_error. rewrite js_or_message. reflexivity.
Qed.

(** C3: a call whose answer is not complete within the configured
    timeout (10000 ms when [options.timeout] is absent) has its signal
    aborted and rejects with the object whose only field is the message
    "Request timeout. Please try again.", so its [status] is undefined. *)
Theorem request_timeout (path : string) (options : RequestOptions) (w : World) :
  wf w ->
  overdue (timeout_of options)
    (server env (fetched w) (request_call env path options w)) = true ->
  fst (request env path options w)
    = Rejected (JObj [("message", JStr "Request timeout. Please try again.")])
  /\ member (JObj [("message", JStr "Request timeout. Please try again.")]) "status"
     = Some JUndefined
  /\ fresh w ∈ aborted (snd (request env path options w))
  /\ (opt_timeout options = None -> timeout_of options = 10000%N)
  /\ (forall ms, opt_timeout options = Some ms -> timeout_of options = ms).
Proof.
  intros Hwf Hlate. split; [|split; [|split; [|split]]].
  - rewrite (request_run env path options w Hwf).
    apply settlement_overdue, (overdue_sooner _ _ _ (timer_delay_le _) Hlate).
  - reflexivity.
  - apply request_overdue; [assumption|].
    apply (overdue_sooner _ _ _ (timer_delay_le _) Hlate).
  - unfold timeout_of. intros ->. reflexivity.
  - unfold timeout_of. intros ms ->. reflexivity.
Qed.

(** C6: when the body of a response is read before the timer of the call
    fires, [request] decodes it by the content type: as JSON when the
    content type includes "application/json", as plain text otherwise
    (also when the header is absent); on a 2xx status it resolves with the
    decoded value, and outside 2xx the decoded value is the [details] of
    the error. *)
Theorem request_decodes (path : string) (options : RequestOptions) (w : World)
    (d d' : N) (r : Response) (text : string) :
  wf w ->
  server env (fetched w) (request_call env path options w) = Responds d r ->
  body r = BodyText d' text ->
  (d + d' <= timer_delay (timeout_of options))%N ->
  (forall ct v,
      content_type r = Some ct -> includes ct "application/json" = true ->
      JSON_parse env text = inl v ->
      fst (request env path options w)
        = if ok r then Resolved v else Rejected (http_error r v))
  /\ (forall ct,
      content_type r = Some ct -> includes ct "application/json" = false ->
      fst (request env path options w)
        = if ok r then Resolved (JStr text) else Rejected (http_error r (JStr text)))
  /\ (content_type r = None ->
      fst (request env path options w)
        = if ok r then Resolved (JStr text) else Rejected (http_error r (JStr text))).
Proof.
  intros Hwf Hscript Hbody Hle.
  rewrite (request_run env path options w Hwf), Hscript.
  rewrite (settlement_body env _ d d' r text Hbody Hle).
  unfold decoded, is_json.
  split; [|split].
  - intros ct v -> -> ->. reflexivity.
  - intros ct -> ->. reflexivity.
  - intros ->. reflexivity.
Qed.

(** C7 (amended): a failure of the platform that comes before the timer
    of the call fires and whose name is not "AbortError" reaches the
    caller as the same error object: a transport failure of [fetch], a
    failure while the body is read, and the SyntaxError of a body that is
    not JSON are all passed on unchanged.  A failure named "AbortError" is
    replaced by the timeout object whatever raised it, also when it comes
    before the timer fires. *)
Theorem request_passes_failures (path : string) (options : RequestOptions)
    (w : World) (name message : string) :
  wf w ->
  name <> "AbortError" ->
  (forall d,
      server env (fetched w) (request_call env path options w)
        = TransportFailure d name message ->
      (d <= timer_delay (timeout_of options))%N ->
      fst (request env path options w) = Rejected (js_error name message))
  /\ (forall d d' r,
      server env (fetched w) (request_call env path options w) = Responds d r ->
      body r = BodyFailure d' name message ->
      (d + d' <= timer_delay (timeout_of options))%N ->
      fst (request env path options w) = Rejected (js_error name message))
  /\ (forall d d' r text,
      server env (fetched w) (request_call env path options w) = Responds d r ->
      body r = BodyText d' text ->
      (d + d' <= timer_delay (timeout_of options))%N ->
      is_json (content_type r) = true ->
      JSON_parse env text = inr message ->
      fst (request env path options w) = Rejected (js_error "SyntaxError" message))
  /\ (forall d raised,
      server env (fetched w) (request_call env path options w)
        = TransportFailure d "AbortError" raised ->
      (d <= timer_delay (timeout_of options))%N ->
      fst (request env path options w)
        = Rejected (JObj [("message", JStr "Request timeout. Please try again.")])).
Proof.
  intros Hwf Hname. rewrite (request_run env path options w Hwf).
  split; [|split; [|split]].
  - intros d -> Hle. unfold settlement.
    replace (d <=? timer_delay (timeout_of options))%N with true
      by (symmetry; apply N.leb_le; lia).
    rewrite (passed_on_other _ _ Hname). reflexivity.
  - intros d d' r -> Hbody Hle. unfold settlement. rewrite Hbody.
    replace (d <=? timer_delay (timeout_of options))%N with true
      by (symmetry; apply N.leb_le; lia).
    replace (d + d' <=? timer_delay (timeout_of options))%N with true
      by (symmetry; apply N.leb_le; lia).
    rewrite (passed_on_other _ _ Hname). reflexivity.
  - intros d d' r text -> Hbody Hle Hjson Hparse.
    rewrite (settlement_body env _ d d' r text Hbody Hle).
    unfold decoded. rewrite Hjson, Hparse. reflexivity.
  - intros d raised -> Hle. unfold settlement.
    replace (d <=? timer_delay (timeout_of options))%N with true
      by (symmetry; apply N.leb_le; lia).
    reflexivity.
Qed.

(** C10: a response outside 2xx whose content type does not include
    "application/json" and whose body was read before the timer of the
    call fires makes [request] reject with the message "Something went
    wrong"; the text of the body is the [details] and never the
    [message]. *)
Theorem request_text_failure (path : string) (options : RequestOptions) (w : World)
    (d d' : N) (r : Response) (text : string) :
  wf w ->
  server env (fetched w) (request_call env path options w) = Responds d r ->
  body r = BodyText d' text ->
  (d + d' <= timer_delay (timeout_of options))%N ->
  is_json (content_type r) = false ->
  ok r = false ->
  fst (request env path options w)
    = Rejected (JObj [("message", JStr "Something went wrong");
                      ("status", JNum (status r));
                      ("details", JStr text)]).
Proof.
  intros Hwf Hscript Hbody Hle Hjson Hok.
  rewrite (request_run env path options w Hwf), Hscript.
  rewrite (settlement_body env _ d d' r text Hbody Hle), Hok.
  unfold decoded. rewrite Hjson. reflexivity.
Qed.

End RequestClaims.

(** ** Headers and the convenience methods *)

Lemma merged_headers_default (options : RequestOptions) :
  opt_headers options = None ->
  merged_headers options = {[ "Content-Type" := JStr "application/json" ]}.
Proof.
  intros H. unfold merged_headers. rewrite H. simpl.
  apply (left_id_L ∅ (∪)).
Qed.

(** Caller headers given as a plain record are merged over the default:
    the caller's value wins on the key "Content-Type", the default stays
    when the caller has no such key, every other key is the caller's. *)
Lemma merged_headers_record (options : RequestOptions) (fields : gmap string string)
    (k : string) :
  opt_headers options = Some (HeadersRecord fields) ->
  merged_headers options !! k =
    match fields !! k with
    | Some v => Some (JStr v)
    | None => if bool_decide (k = "Content-Type")
              then Some (JStr "application/json") else None
    end.
Proof.
  intros H. unfold merged_headers. rewrite H. simpl.
  rewrite lookup_union, lookup_fmap.
  destruct (fields !! k) as [v|]; simpl.
  - destruct ({[ "Content-Type" := JStr "application/json" ]} !! k); reflexivity.
  - rewrite (left_id_L None union).
    case_bool_decide as Hk.
    + subst k. apply lookup_singleton_eq.
    + apply lookup_singleton_ne. congruence.
Qed.

(** The members of the options a wrapper hands to [request]. *)
Lemma with_method_members (m : string) (b : Property string)
    (options : option RequestOptions) :
  opt_method (with_method m b options)
    = match from_option own_method Absent options with
      | Absent => Some m
      | Own given => given
      end
  /\ opt_body (with_method m b options)
     = match from_option own_body Absent options with
       | Absent => read b
       | Own given => given
       end
  /\ opt_headers (with_method m b options) = options ≫= opt_headers
  /\ opt_timeout (with_method m b options) = options ≫= opt_timeout
  /\ opt_signal (with_method m b options) = options ≫= opt_signal
  /\ opt_extra (with_method m b options) = from_option opt_extra ∅ options.
Proof.
  destruct options as [[method body headers signal timeout extra]|];
    unfold with_method, spread, opt_method, opt_body, opt_headers, opt_timeout,
      opt_signal; simpl.
  - destruct method, body, headers, signal, timeout; simpl;
      repeat split; try apply (right_id_L ∅ (∪)).
  - repeat split; try apply (left_id_L ∅ (∪)).
Qed.

Section ApiClaims.

Variable env : Platform.

Lemma createRegistration_call (payload : RegistrationPayload) (w : World) :
  request_call env "/registrations"
    (with_method "POST" (Own (JSON_stringify env (payload_object payload))) None) w
  = registration_call env payload (fresh w).
Proof.
  unfold request_call, registration_call, with_method, spread; simpl.
  rewrite merged_headers_default by reflexivity.
  rewrite (left_id_L ∅ (∪)). reflexivity.
Qed.

(** Every run of [createRegistration] fetches once. *)
Lemma createRegistration_log (payload : RegistrationPayload) (w : World) :
  fetched (snd (createRegistration env payload w))
  = (fetched w ++ [registration_call env payload (fresh w)])%list.
Proof.
  unfold createRegistration, api_post.
  rewrite request_log, createRegistration_call. reflexivity.
Qed.

(** C1: [createRegistration payload] is the [request] for "/registrations"
    with method POST and the serialized payload as body; a run of it
    calls [fetch] exactly once, with that URL, method and body; it
    resolves with the decoded body of a 2xx JSON response; a second call
    makes a second request. *)
Theorem createRegistration_posts_once (payload : RegistrationPayload) (w : World) :
  createRegistration env payload
    = request env "/registrations"
        (mkOptions (Some "POST") (JSON_stringify env (payload_object payload))
           None None None ∅)
  /\ fetched (snd (createRegistration env payload w))
     = (fetched w ++ [registration_call env payload (fresh w)])%list
  /\ (forall d d' r text v,
        wf w ->
        server env (fetched w) (registration_call env payload (fresh w)) = Responds d r ->
        body r = BodyText d' text ->
        (d + d' <= 10000)%N ->
        is_json (content_type r) = true ->
        JSON_parse env text = inl v ->
        ok r = true ->
        fst (createRegistration env payload w) = Resolved v)
  /\ (let w' := snd (createRegistration env payload w) in
      fetched (snd (createRegistration env payload w'))
      = (fetched w ++ [registration_call env payload (fresh w);
                       registration_call env payload (fresh w')])%list).
Proof.
  unfold createRegistration, api_post.
  split; [destruct (JSON_stringify env (payload_object payload)); reflexivity|].
  split; [|split].
  - rewrite request_log, createRegistration_call. reflexivity.
  - intros d d' r text v Hwf Hscript Hbody Hle Hjson Hparse Hok.
    rewrite (request_run env _ _ w Hwf), createRegistration_call, Hscript.
    rewrite (settlement_body env _ d d' r text Hbody) by exact Hle.
    unfold decoded. rewrite Hjson, Hparse, Hok. reflexivity.
  - cbn zeta. rewrite !request_log, !createRegistration_call.
    rewrite <- app_assoc. reflexivity.
Qed.

(** C9 (amended): each convenience method is [request] applied to the
    caller's options with the method, and for post, put and patch the
    serialized body, written before the spread of the caller's options: the
    fixed method and the serialized body are sent when the caller's options
    have no own [method] or [body]; an own [method] or [body] of the
    caller's options is the one sent, also when its value is [undefined].
    Everything else is the caller's. *)
Theorem api_methods (path : string) (body : JsVal) (options : option RequestOptions)
    (w : World) :
  let given_method := from_option own_method Absent options in
  let given_body := from_option own_body Absent options in
  let serialized := Own (JSON_stringify env body) in
  let sent m b := request_call env path (with_method m b options) w in
  (api_get env path options = request env path (with_method "GET" Absent options)
   /\ api_post env path body options
      = request env path (with_method "POST" serialized options)
   /\ api_put env path body options
      = request env path (with_method "PUT" serialized options)
   /\ api_patch env path body options
      = request env path (with_method "PATCH" serialized options)
   /\ api_delete env path options
      = request env path (with_method "DELETE" Absent options))
  /\ (fetched (snd (api_get env path options w))
        = (fetched w ++ [sent "GET" Absent])%list
      /\ fetched (snd (api_post env path body options w))
        = (fetched w ++ [sent "POST" serialized])%list
      /\ fetched (snd (api_put env path body options w))
        = (fetched w ++ [sent "PUT" serialized])%list
      /\ fetched (snd (api_patch env path body options w))
        = (fetched w ++ [sent "PATCH" serialized])%list
      /\ fetched (snd (api_delete env path options w))
        = (fetched w ++ [sent "DELETE" Absent])%list)
  /\ (forall m b,
        call_url (sent m b) = BASE_URL env +:+ path
        /\ init_method (call_init (sent m b))
           = match given_method with Absent => Some m | Own given => given end
        /\ init_body (call_init (sent m b))
           = match given_body with Absent => read b | Own given => given end
        /\ init_timeout (call_init (sent m b)) = options ≫= opt_timeout
        /\ init_extra (call_init (sent m b)) = from_option opt_extra ∅ options
        /\ init_headers (call_init (sent m b))
           = merged_headers (default no_options options))
  /\ (forall m b,
        given_method = Absent ->
        init_method (call_init (sent m b)) = Some m)
  /\ (given_body = Absent ->
      init_body (call_init (sent "GET" Absent)) = None
      /\ init_body (call_init (sent "POST" serialized)) = JSON_stringify env body
      /\ init_body (call_init (sent "PUT" serialized)) = JSON_stringify env body
      /\ init_body (call_init (sent "PATCH" serialized)) = JSON_stringify env body
      /\ init_body (call_init (sent "DELETE" Absent)) = None)
  /\ (forall m b given,
        given_method = Own given ->
        init_method (call_init (sent m b)) = given)
  /\ (forall m b given,
        given_body = Own given ->
        init_body (call_init (sent m b)) = given).
Proof.
  intros given_method given_body serialized sent.
  assert (Hsent : forall m b,
        call_url (sent m b) = BASE_URL env +:+ path
        /\ init_method (call_init (sent m b))
           = match given_method with Absent => Some m | Own given => given end
        /\ init_body (call_init (sent m b))
           = match given_body with Absent => read b | Own given => given end
        /\ init_timeout (call_init (sent m b)) = options ≫= opt_timeout
        /\ init_extra (call_init (sent m b)) = from_option opt_extra ∅ options
        /\ init_headers (call_init (sent m b))
           = merged_headers (default no_options options)).
  { intros m b. unfold sent, request_call; cbn [call_url call_init init_method
      init_body init_timeout init_extra init_headers].
    destruct (with_method_members m b options) as (Hm & Hb & Hh & Ht & _ & He).
    rewrite Hm, Hb, Ht, He. repeat split.
    unfold merged_headers. rewrite Hh. destruct options; reflexivity. }
  split; [repeat split|]. split; [|split; [exact Hsent|]].
  - unfold api_get, api_post, api_put, api_patch, api_delete, sent.
    rewrite !request_log. repeat split.
  - split; [|split; [|split]].
    + intros m b Hnone. destruct (Hsent m b) as (_ & -> & _).
      rewrite Hnone. reflexivity.
    + intros Hnone.
      repeat split;
        match goal with
        | |- init_body (call_init (sent ?m ?b)) = _ =>
            destruct (Hsent m b) as (_ & _ & -> & _); rewrite Hnone; reflexivity
        end.
    + intros m b given Hown. destruct (Hsent m b) as (_ & -> & _).
      rewrite Hown. reflexivity.
    + intros m b given Hown. destruct (Hsent m b) as (_ & _ & -> & _).
      rewrite Hown. reflexivity.
Qed.

End ApiClaims.

(** ** Trimming *)

Lemma trim_start_split (s : string) :
  exists before,
    s = before +:+ trim_start s
    /\ all_space before = true /\ starts_with_space (trim_start s) = false.
Proof.
  induction s as [|a s (before & Hs & Hb & Hstart)].
  - exists EmptyString. repeat split.
  - simpl. destruct (is_space a) eqn:Ha.
    + exists (String a before). rewrite append_cons. cbn [all_space].
      rewrite <- Hs, Ha, Hb. repeat split. exact Hstart.
    + exists EmptyString. rewrite append_empty. cbn [all_space starts_with_space].
      repeat split. exact Ha.
Qed.

Lemma trim_end_split (s : string) :
  exists after,
    s = trim_end s +:+ after
    /\ all_space after = true /\ ends_with_space (trim_end s) = false.
Proof.
  induction s as [|a s (after & Hs & Ha & Hend)].
  - exists EmptyString. repeat split.
  - cbn [trim_end]. destruct (trim_end s) as [|b kept] eqn:Hkept.
    + rewrite append_empty in Hs. subst after.
      destruct (is_space a) eqn:Hspace.
      * exists (String a s). rewrite append_empty. cbn [all_space].
        rewrite Hspace, Ha. repeat split.
      * exists s. rewrite append_cons, append_empty. cbn [ends_with_space].
        repeat split; assumption.
    + exists after. rewrite append_cons, <- Hs. repeat split; assumption.
Qed.

Lemma trim_end_keeps_start (s : string) :
  starts_with_space s = false -> starts_with_space (trim_end s) = false.
Proof.
  destruct s as [|a s]; [reflexivity|]. cbn [starts_with_space trim_end].
  intros Ha. destruct (trim_end s); [rewrite Ha|]; exact Ha.
Qed.

(** [trim] removes white space from both ends and nothing else. *)
Lemma trim_trimmed (s : string) : trimmed_from s (trim s).
Proof.
  unfold trim.
  destruct (trim_start_split s) as (before & Hs & Hb & Hstart).
  destruct (trim_end_split (trim_start s)) as (after & Hk & Ha & Hend).
  exists before, after. repeat split; try assumption.
  - rewrite <- Hk. exact Hs.
  - apply trim_end_keeps_start, Hstart.
Qed.

Lemma trim_start_skips (before rest : string) :
  all_space before = true -> trim_start (before +:+ rest) = trim_start rest.
Proof.
  induction before as [|a before IH]; [reflexivity|].
  rewrite append_cons. cbn [all_space trim_start].
  intros [-> Hb]%andb_prop. exact (IH Hb).
Qed.

Lemma trim_end_all_space (s : string) : all_space s = true -> trim_end s = EmptyString.
Proof.
  induction s as [|a s IH]; [reflexivity|].
  cbn [all_space trim_end]. intros [-> Hs]%andb_prop. rewrite (IH Hs). reflexivity.
Qed.

Lemma trim_end_drops (out after : string) :
  all_space after = true -> ends_with_space out = false ->
  trim_end (out +:+ after) = out.
Proof.
  intros Ha. induction out as [|a out IH].
  - intros _. apply trim_end_all_space, Ha.
  - rewrite append_cons. cbn [ends_with_space trim_end]. destruct out as [|b out].
    + intros Hend. rewrite append_empty, (trim_end_all_space _ Ha), Hend.
      reflexivity.
    + intros Hend. rewrite (IH Hend). reflexivity.
Qed.

(** The description determines the result: what is left of [raw] after
    removing white space at both ends is [trim raw]. *)
Lemma trimmed_from_trim (raw out : string) : trimmed_from raw out -> out = trim raw.
Proof.
  intros (before & after & -> & Hb & Ha & Hstart & Hend). unfold trim.
  rewrite (trim_start_skips _ _ Hb).
  destruct out as [|a out].
  - rewrite append_empty.
    assert (Hall : trim_start after = EmptyString).
    { clear -Ha. induction after as [|x after IH]; [reflexivity|].
      cbn [all_space trim_start] in *. apply andb_prop in Ha as [-> Ha]. exact (IH Ha). }
    rewrite Hall. reflexivity.
  - cbn [starts_with_space] in Hstart. rewrite append_cons. cbn [trim_start].
    rewrite Hstart, <- append_cons.
    symmetry. apply trim_end_drops; assumption.
Qed.

(** ** The statements about the registration modal *)

Section ModalClaims.

Variable env : Platform.

(** A submit event that passes the guard of its render. *)
Lemma handleSubmit_idle (seen ui : Ui) (clock : Z) :
  submitting seen = false ->
  handleSubmit env seen clock ui
  = mkUi (form ui) true (modalOpen ui)
      (calls ui ++ [registrationData env clock (form seen)])
      (inflight ui ++ [registrationData env clock (form seen)])
      (alerts ui) (console ui)
      (snd (createRegistration env (registrationData env clock (form seen)) (net ui))).
Proof. intros Hidle. unfold handleSubmit. rewrite Hidle. reflexivity. Qed.

(** A render of [ui], then one event, is an event on the handlers of
    that render. *)
Lemma step_handle (ui : Ui) (ev : Event) : step env ui ev = handle env ui ui ev.
Proof. reflexivity. Qed.

(** [run] is the page on which React renders before every event. *)
Lemma run_render_each (m : Mounted) (evs : list Event) :
  live (react_all env m (render_each evs)) = run env (live m) evs.
Proof.
  unfold run, react_all, render_each. revert m.
  induction evs as [|ev evs IH]; intros m; [reflexivity|].
  cbn [flat_map app fold_left]. rewrite IH. reflexivity.
Qed.

Lemma render_each_between (fresh : bool) (evs : list Event) :
  render_between_submits fresh (render_each evs) = true.
Proof.
  revert fresh. induction evs as [|ev evs IH]; intros fresh; [reflexivity|].
  unfold render_each; cbn [flat_map app render_between_submits].
  destruct ev; cbn [andb]; apply IH.
Qed.

(** The fetch log follows the calls made, whatever the action. *)
Lemma logged_react (m : Mounted) (a : Action) :
  logged env (live m) -> logged env (live (react env m a)).
Proof.
  intros Hlog. destruct a as [ev|]; [|exact Hlog]. cbn [react live].
  destruct ev as [clock|result|key value| |course]; cbn [handle].
  - destruct (modalOpen (seen m)); [|exact Hlog].
    destruct (submitting (seen m)) eqn:Hsub;
      [unfold handleSubmit; rewrite Hsub; exact Hlog|].
    rewrite (handleSubmit_idle _ _ _ Hsub). unfold logged; cbn [net calls].
    rewrite createRegistration_log. apply Forall2_app; [exact Hlog|].
    constructor; [|constructor]. eexists. reflexivity.
  - destruct result as [v|e|], (inflight (live m)); exact Hlog.
  - destruct (modalOpen (seen m)); exact Hlog.
  - exact Hlog.
  - exact Hlog.
Qed.

(** The guard is kept by every action that leaves a render between two
    submit events. *)
Lemma guarded_react (fresh : bool) (m : Mounted) (a : Action) :
  guarded fresh m ->
  match a with Fire (Submit _) => fresh = true | _ => True end ->
  guarded (match a with
           | Render => true
           | Fire (Submit _) => false
           | Fire _ => fresh
           end) (react env m a).
Proof.
  intros (Hiff & Hlen & Hseen) Hfresh.
  destruct a as [ev|]; unfold guarded; cbn [react live seen];
    [|split; [exact Hiff|split; [exact Hlen|intros _ H; exact H]]].
  destruct m as [ui sn]; cbn [live seen] in *.
  destruct ui as [f sub op cs pending al co nt];
    cbn [submitting inflight] in *.
  destruct ev as [clock|result|key value| |course]; cbn [handle].
  - destruct (modalOpen sn);
      [|split; [exact Hiff|split; [exact Hlen|discriminate]]].
    destruct (submitting sn) eqn:Hsub.
    + unfold handleSubmit. rewrite Hsub.
      split; [exact Hiff|split; [exact Hlen|discriminate]].
    + rewrite (handleSubmit_idle _ _ _ Hsub); cbn [submitting inflight].
      assert (Hidle : pending = []).
      { destruct pending as [|q pending]; [reflexivity|].
        assert (Hs : sub = true) by (apply Hiff; discriminate).
        specialize (Hseen Hfresh Hs). discriminate. }
      subst pending.
      split; [split; [discriminate|reflexivity]|]. split; [cbn; lia|discriminate].
  - cbn [inflight].
    destruct result as [v|e|];
      [| |split; [exact Hiff|split; [exact Hlen|exact Hseen]]];
      (destruct pending as [|q pending];
       [split; [exact Hiff|split; [exact Hlen|exact Hseen]]|]);
      cbn [handleSubmit_settled submitting inflight form modalOpen calls alerts
             console net];
      (destruct pending as [|q' pending]; [|cbn in Hlen; lia]);
      (split; [split; [discriminate|intros H; contradiction]|]);
      (split; [cbn; lia|discriminate]).
  - destruct (modalOpen sn); cbn [submitting inflight];
      split; try exact Hiff; split; try exact Hlen; exact Hseen.
  - cbn [submitting inflight]. split; [exact Hiff|split; [exact Hlen|exact Hseen]].
  - cbn [submitting inflight]. split; [exact Hiff|split; [exact Hlen|exact Hseen]].
Qed.

Lemma guarded_react_all (acts : list Action) (fresh : bool) (m : Mounted) :
  guarded fresh m ->
  render_between_submits fresh acts = true ->
  exists fresh', guarded fresh' (react_all env m acts).
Proof.
  revert fresh m. induction acts as [|a acts IH]; intros fresh m Hm Hacts.
  - exists fresh. exact Hm.
  - unfold react_all; cbn [fold_left].
    destruct a as [ev|]; cbn [render_between_submits] in Hacts.
    + destruct ev as [clock|result|key value| |course].
      * apply andb_prop in Hacts as [-> Hacts].
        apply (IH false);
          [apply (guarded_react true m (Fire (Submit clock)) Hm eq_refl)|exact Hacts].
      * apply (IH fresh);
          [apply (guarded_react fresh m (Fire (Settled result)) Hm I)|exact Hacts].
      * apply (IH fresh);
          [apply (guarded_react fresh m (Fire (Change key value)) Hm I)|exact Hacts].
      * apply (IH fresh); [apply (guarded_react fresh m (Fire Dismiss) Hm I)|exact Hacts].
      * apply (IH fresh);
          [apply (guarded_react fresh m (Fire (Open course)) Hm I)|exact Hacts].
    + apply (IH true); [apply (guarded_react fresh m Render Hm I)|exact Hacts].
Qed.

Lemma logged_react_all (acts : list Action) (m : Mounted) :
  logged env (live m) -> logged env (live (react_all env m acts)).
Proof.
  revert m. induction acts as [|a acts IH]; intros m Hm; [exact Hm|].
  unfold react_all; cbn [fold_left]. apply IH, logged_react, Hm.
Qed.

(** X12: from the first opening of the modal on, whatever the events and
    the renders, the requests fetched are the calls made, one POST to
    "/registrations" each; and as long as React renders between one submit
    event and the next, the form is submitting exactly when a call is
    pending and at most one call is pending. *)
Theorem one_call_between_renders (defaultCourseId : string) (acts : list Action) :
  let m := react_all env (rendered (initial defaultCourseId)) acts in
  logged env (live m)
  /\ length (fetched (net (live m))) = length (calls (live m))
  /\ (render_between_submits true acts = true ->
      (submitting (live m) = true <-> inflight (live m) <> [])
      /\ (length (inflight (live m)) <= 1)%nat).
Proof.
  intros m.
  assert (Hlog : logged env (live m)).
  { apply logged_react_all. constructor. }
  split; [exact Hlog|]. split; [exact (Forall2_length _ _ _ Hlog)|].
  intros Hacts.
  destruct (guarded_react_all acts true (rendered (initial defaultCourseId)))
    as (fresh & Hiff & Hlen & _); [|exact Hacts|split; [exact Hiff|exact Hlen]].
  split; [split; [discriminate|intros H; contradiction]|].
  split; [cbn; lia|intros _ H; exact H].
Qed.


End ModalClaims.

(** ** Examples *)

Lemma wf_quiet : wf quiet.
Proof. split; constructor. Qed.

(** A 201 response with body [{ ...payload, id: 42 }] resolves with that
    object. *)
Lemma createRegistration_posts_once_witness :
  fst (createRegistration env_created example_payload quiet) = Resolved example_saved.
Proof.
  refine (proj1 (proj2 (proj2
            (createRegistration_posts_once env_created example_payload quiet)))
            120%N 5%N (json_reply 201 example_saved) _ example_saved _ _ _ _ _ _ _).
  - split; constructor.
  - reflexivity.
  - reflexivity.
  - vm_compute. discriminate.
  - vm_compute. reflexivity.
  - vm_compute. reflexivity.
  - reflexivity.
Defined.

(** A 400 response with body [{ message: "Email already registered" }]. *)
Lemma request_http_failure_witness :
  fst (request env_conflict "/registrations" no_options quiet)
    = Rejected (JObj [("message", JStr "Email already registered");
                      ("status", JNum 400);
                      ("details", conflict_body)]).
Proof.
  refine (request_http_failure env_conflict "/registrations" no_options quiet
            120%N 5%N (json_reply 400 conflict_body) _ conflict_body _ _ _ _ _ _).
  - split; constructor.
  - reflexivity.
  - reflexivity.
  - vm_compute. discriminate.
  - vm_compute. reflexivity.
  - reflexivity.
Defined.

(** The same response with an empty [message]: the field is present, the
    error carries the generic text. *)
Lemma request_http_failure_counterexample :
  message_as_stated blank_body = JStr ""
  /\ fst (request env_blank "/registrations" no_options quiet)
     = Rejected (JObj [("message", JStr "Something went wrong");
                       ("status", JNum 400);
                       ("details", blank_body)])
  /\ fst (request env_blank "/registrations" no_options quiet)
     <> Rejected (JObj [("message", message_as_stated blank_body);
                        ("status", JNum 400);
                        ("details", blank_body)]).
Proof.
  split; [reflexivity|].
  assert (H : fst (request env_blank "/registrations" no_options quiet)
     = Rejected (JObj [("message", JStr "Something went wrong");
                       ("status", JNum 400);
                       ("details", blank_body)])) by (vm_compute; reflexivity).
  split; [exact H|]. rewrite H. discriminate.
Qed.

(** No answer within the default 10 seconds. *)
Lemma request_timeout_witness :
  fst (request env_silent "/registrations" no_options quiet)
    = Rejected (JObj [("message", JStr "Request timeout. Please try again.")])
  /\ timeout_of no_options = 10000%N.
Proof.
  destruct (request_timeout env_silent "/registrations" no_options quiet)
    as (Hrejects & _ & _ & Hdefault & _).
  - split; constructor.
  - reflexivity.
  - split; [exact Hrejects|exact (Hdefault eq_refl)].
Defined.

(** A JSON body on a 201 status. *)
Lemma request_decodes_witness :
  fst (request env_created "/registrations" no_options quiet) = Resolved example_saved.
Proof.
  refine (proj1 (request_decodes env_created "/registrations" no_options quiet
                   120%N 5%N (json_reply 201 example_saved) _ _ _ _ _)
            "application/json; charset=utf-8" example_saved _ _ _).
  - split; constructor.
  - reflexivity.
  - reflexivity.
  - vm_compute. discriminate.
  - reflexivity.
  - vm_compute. reflexivity.
  - vm_compute. reflexivity.
Defined.

(** The network is down. *)
Lemma request_passes_failures_witness :
  fst (request env_offline "/registrations" no_options quiet)
    = Rejected (js_error "TypeError" "Failed to fetch").
Proof.
  refine (proj1 (request_passes_failures env_offline "/registrations" no_options quiet
                   "TypeError" "Failed to fetch" _ _) 30%N _ _).
  - split; constructor.
  - discriminate.
  - reflexivity.
  - vm_compute. discriminate.
Defined.

(** A plain-text 500 response. *)
Lemma request_text_failure_witness :
  fst (request env_plain "/registrations" no_options quiet)
    = Rejected (JObj [("message", JStr "Something went wrong");
                      ("status", JNum 500);
                      ("details", JStr "Server Error")]).
Proof.
  refine (request_text_failure env_plain "/registrations" no_options quiet
            120%N 5%N (text_reply 500 "Server Error") _ _ _ _ _ _ _).
  - split; constructor.
  - reflexivity.
  - reflexivity.
  - vm_compute. discriminate.
  - reflexivity.
  - reflexivity.
Defined.

(** C8: caller headers given as a [Headers] instance, or as an array of
    pairs, do not reach [fetch]: the spread copies no entry of the
    instance and copies the array by index. *)
Theorem request_drops_headers_instance :
  let instance :=
    mkOptions None None (Some (HeadersInstance [("Authorization", "Bearer abc")]))
      None None ∅ in
  let pairs :=
    mkOptions None None (Some (HeadersPairs [["Authorization"; "Bearer abc"]]))
      None None ∅ in
  (exists call,
      fetched (snd (request env_silent "/registrations" instance quiet)) = [call]
      /\ init_headers (call_init call) !! "Authorization" = None
      /\ init_headers (call_init call) !! "Content-Type" = Some (JStr "application/json"))
  /\ (exists call,
      fetched (snd (request env_silent "/registrations" pairs quiet)) = [call]
      /\ init_headers (call_init call) !! "Authorization" = None
      /\ init_headers (call_init call) !! "0"
         = Some (JArr [JStr "Authorization"; JStr "Bearer abc"])).
Proof.
  cbn zeta. split; eexists; (split; [rewrite request_log; reflexivity|]);
    split; vm_compute; reflexivity.
Qed.

(** [api.get] with a [method] in the options, [api.post] with a [body]
    in the options: the caller's are sent, also a [body] whose value is
    [undefined]. *)
Lemma api_methods_counterexample :
  let delete := Some (mkOptions (Some "DELETE") None None None None ∅) in
  let raw := Some (mkOptions None (Some "raw") None None None ∅) in
  let no_body := Some (mkRequestOptions Absent (Own None) Absent Absent Absent ∅) in
  (exists call,
      fetched (snd (api_get env_silent "/registrations" delete quiet)) = [call]
      /\ init_method (call_init call) = Some "DELETE"
      /\ init_method (call_init call) <> Some "GET")
  /\ (exists call,
      fetched (snd (api_post env_silent "/registrations" (JStr "a") raw quiet)) = [call]
      /\ init_body (call_init call) = Some "raw"
      /\ init_body (call_init call) <> JSON_stringify env_silent (JStr "a"))
  /\ (exists call,
      fetched (snd (api_post env_silent "/registrations" (JStr "a") no_body quiet))
        = [call]
      /\ init_body (call_init call) = None
      /\ init_body (call_init call) <> JSON_stringify env_silent (JStr "a")).
Proof.
  cbn zeta. repeat split; eexists;
    (split; [unfold api_get, api_post; rewrite request_log; reflexivity|]);
    (split; [reflexivity|vm_compute; discriminate]).
Qed.

(** [api.post] without options. *)
Lemma api_methods_witness :
  exists call,
    fetched (snd (api_post env_silent "/registrations" (JStr "a") None quiet)) = [call]
    /\ init_method (call_init call) = Some "POST"
    /\ init_body (call_init call) = Some (dquote +:+ "a" +:+ dquote).
Proof.
  destruct (api_methods env_silent "/registrations" (JStr "a") None quiet)
    as (_ & (_ & Hpost & _) & _ & Hmethod & Hbody & _).
  eexists. split; [exact Hpost|]. split.
  - exact (Hmethod "POST" _ eq_refl).
  - exact (proj1 (proj2 (Hbody eq_refl))).
Defined.

(** A failure of the platform that is named "AbortError" and comes in
    time: the timer has not fired and no signal is aborted, yet the caller
    gets the timeout object, not the error. *)
Lemma request_passes_failures_counterexample :
  server env_abort_named (fetched quiet)
    (request_call env_abort_named "/registrations" no_options quiet)
    = TransportFailure 30 "AbortError" "The user aborted a request."
  /\ (30 <= timer_delay (timeout_of no_options))%N
  /\ aborted (snd (request env_abort_named "/registrations" no_options quiet)) = []
  /\ fst (request env_abort_named "/registrations" no_options quiet)
     = Rejected (JObj [("message", JStr "Request timeout. Please try again.")])
  /\ fst (request env_abort_named "/registrations" no_options quiet)
     <> Rejected (js_error "AbortError" "The user aborted a request.").
Proof.
  assert (H : fst (request env_abort_named "/registrations" no_options quiet)
     = Rejected (JObj [("message", JStr "Request timeout. Please try again.")]))
    by (vm_compute; reflexivity).
  split; [reflexivity|]. split; [vm_compute; discriminate|].
  split; [vm_compute; reflexivity|]. split; [exact H|].
  rewrite H. vm_compute. discriminate.
Qed.


(** ** The world after a call *)

Lemma later_refl (w : World) : later w w.
Proof.
  unfold later. repeat split; try reflexivity; try (intros; assumption).
  - intros c Hc. left. exact Hc.
Qed.

Lemma later_trans (w1 w2 w3 : World) : later w1 w2 -> later w2 w3 -> later w1 w3.
Proof.
  intros (Hn & Hf & Ht & Ha & Hb & Hl) (Hn' & Hf' & Ht' & Ha' & Hb' & Hl').
  unfold later. repeat split.
  - lia.
  - congruence.
  - intros tm H. apply Ht, Ht', H.
  - intros c H. apply Ha', Ha, H.
  - intros c H. destruct (Hb' c H) as [H2|(tm & Htm & Hc)].
    + exact (Hb c H2).
    + right. exists tm. split; [apply Ht, Htm|exact Hc].
  - congruence.
Qed.

Lemma later_elapse (strictly : bool) (t : N) (w : World) :
  (now w <= t)%N -> later w (elapse strictly t w).
Proof.
  intros Hle. unfold later, elapse; cbn [now fresh timers aborted fetched].
  repeat split; try assumption.
  - intros tm Hin. apply list_elem_of_In in Hin. apply List.filter_In in Hin as [Hin _].
    apply list_elem_of_In, Hin.
  - intros c Hc. apply elem_of_app. right. exact Hc.
  - intros c Hc. apply elem_of_app in Hc as [Hc|Hc]; [right|left; exact Hc].
    apply list_elem_of_In, List.in_map_iff in Hc as (tm & Heq & Hin).
    apply List.filter_In in Hin as [Hin _].
    exists tm. split; [apply list_elem_of_In, Hin|exact Heq].
Qed.

Lemma later_clearTimeout (id : nat) (w : World) : later w (snd (clearTimeout id w)).
Proof.
  unfold later, clearTimeout; cbn [snd now fresh timers aborted fetched].
  repeat split; try reflexivity; try (intros; assumption).
  - intros tm Hin. apply list_elem_of_In in Hin. apply List.filter_In in Hin as [Hin _].
    apply list_elem_of_In, Hin.
  - intros c Hc. left. exact Hc.
Qed.

Lemma armed_live (c id : nat) (deadline : N) (w : World) :
  armed c id deadline w -> c ∉ aborted w.
Proof. intros (_ & _ & _ & H). exact H. Qed.

Lemma aborted_clearTimeout (id : nat) (w : World) :
  aborted (snd (clearTimeout id w)) = aborted w.
Proof. reflexivity. Qed.

Lemma now_clearTimeout (id : nat) (w : World) :
  now (snd (clearTimeout id w)) = now w.
Proof. reflexivity. Qed.

Lemma timers_clearTimeout (id : nat) (w : World) :
  Forall (fun tm => timer_id tm <> id) (timers (snd (clearTimeout id w))).
Proof.
  unfold clearTimeout; cbn [snd timers]. apply List.Forall_forall. intros tm Hin.
  apply List.filter_In in Hin as [_ Hid].
  apply negb_true_iff, Nat.eqb_neq in Hid. exact Hid.
Qed.

Lemma world_timed_out (w0 wa : World) (c id id' : nat) (deadline : N) :
  armed c id deadline wa -> later w0 wa -> (now wa <= deadline)%N ->
  later w0 (snd (clearTimeout id' (elapse false deadline wa)))
  /\ now (snd (clearTimeout id' (elapse false deadline wa))) = deadline
  /\ c ∈ aborted (snd (clearTimeout id' (elapse false deadline wa))).
Proof.
  intros Harmed Hlater Hnow. split; [|split].
  - eapply later_trans; [exact Hlater|].
    eapply later_trans; [apply later_elapse, Hnow|apply later_clearTimeout].
  - reflexivity.
  - rewrite aborted_clearTimeout. apply (armed_fires _ _ _ _ Harmed).
Qed.

Lemma world_in_time (w0 wa : World) (c id id' : nat) (deadline t : N) :
  armed c id deadline wa -> later w0 wa -> (now wa <= t)%N -> (t <= deadline)%N ->
  later w0 (snd (clearTimeout id' (elapse true t wa)))
  /\ now (snd (clearTimeout id' (elapse true t wa))) = t
  /\ c ∉ aborted (snd (clearTimeout id' (elapse true t wa))).
Proof.
  intros Harmed Hlater Hnow Hle. split; [|split].
  - eapply later_trans; [exact Hlater|].
    eapply later_trans; [apply later_elapse, Hnow|apply later_clearTimeout].
  - reflexivity.
  - rewrite aborted_clearTimeout.
    apply (armed_live _ _ _ _ (armed_elapse _ _ _ _ _ Harmed Hle)).
Qed.

Ltac settle_finally :=
  repeat match goal with
    | |- context [snd ?t] =>
        lazymatch t with
        | clearTimeout _ _ => fail
        | context [clearTimeout ?id ?wx] =>
            replace (snd t) with (snd (clearTimeout id wx)) by reflexivity
        end
    end.

Section World.

Variable env : Platform.

#[local] Arguments elapse : simpl never.
#[local] Arguments clearTimeout : simpl never.
#[local] Arguments N.add : simpl never.
#[local] Arguments N.leb : simpl never.
#[local] Arguments N.ltb : simpl never.

Lemma request_world (path : string) (options : RequestOptions) (w : World) :
  wf w ->
  later (started env path options w) (snd (request env path options w))
  /\ (now (snd (request env path options w)) <= now w + timer_delay (timeout_of options))%N
  /\ (fresh w ∈ aborted (snd (request env path options w))
      <-> overdue (timer_delay (timeout_of options))
            (server env (fetched w) (request_call env path options w)) = true)
  /\ Forall (fun tm => timer_id tm <> S (fresh w))
       (timers (snd (request env path options w))).
Proof.
  intros Hwf.
  unfold request, mbind, async_bind, new_AbortController, setTimeout_abort.
  cbn beta iota.
  fold (timeout_of options).
  unfold try_catch_finally, fetch.
  cbn [init_signal fetched now fresh timers aborted].
  fold (request_call env path options w).
  fold (started env path options w).
  pose proof (armed_fresh w (timer_delay (timeout_of options))
                (fetched w ++ [request_call env path options w]) Hwf) as Harmed.
  fold (started env path options w) in Harmed.
  rewrite (await_armed _ _ _ _ _ Harmed).
  assert (Hstart : now (started env path options w) = now w) by reflexivity.
  rewrite Hstart.
  pose proof (later_refl (started env path options w)) as Hlater.
  set (w0 := started env path options w) in *.
  unfold overdue, completion_time.
  destruct (server env (fetched w) (request_call env path options w))
    as [|d name message|d r].
  - cbn. settle_finally.
    destruct (world_timed_out w0 w0 _ _ (S (fresh w)) _ Harmed Hlater) as (H1 & H2 & H3);
      [rewrite Hstart; lia|].
    rewrite H2. split; [exact H1|]. split; [lia|]. split; [|apply timers_clearTimeout].
    split; [reflexivity|intros _; exact H3].
  - rewrite leb_shift. destruct (N.leb_spec d (timer_delay (timeout_of options))) as [Hd|Hd].
    + rewrite on_error_platform. cbn. settle_finally.
      destruct (world_in_time w0 w0 _ _ (S (fresh w)) _ (now w + d)%N Harmed Hlater)
        as (H1 & H2 & H3); [rewrite Hstart; lia|lia|].
      rewrite H2. split; [exact H1|]. split; [lia|]. split; [|apply timers_clearTimeout].
      split; [intros H; contradiction|].
      intros H. apply N.ltb_lt in H. lia.
    + cbn. settle_finally.
      destruct (world_timed_out w0 w0 _ _ (S (fresh w)) _ Harmed Hlater) as (H1 & H2 & H3);
        [rewrite Hstart; lia|].
      rewrite H2. split; [exact H1|]. split; [lia|]. split; [|apply timers_clearTimeout].
      split; [intros _; apply N.ltb_lt; exact Hd|intros _; exact H3].
  - rewrite leb_shift. destruct (N.leb_spec d (timer_delay (timeout_of options))) as [Hd|Hd].
    2:{ cbn. settle_finally.
        destruct (world_timed_out w0 w0 _ _ (S (fresh w)) _ Harmed Hlater)
          as (H1 & H2 & H3); [rewrite Hstart; lia|].
        rewrite H2. split; [exact H1|]. split; [lia|].
        split; [|apply timers_clearTimeout].
        split; [intros _|intros _; exact H3].
        destruct (body r); [reflexivity|apply N.ltb_lt; lia|apply N.ltb_lt; lia]. }
    assert (Harmed1 : armed (fresh w) (S (fresh w)) (now w + timer_delay (timeout_of options))
                        (elapse true (now w + d)%N w0))
      by (apply armed_elapse; [exact Harmed|lia]).
    assert (Hlater1 : later w0 (elapse true (now w + d)%N w0))
      by (apply later_elapse; rewrite Hstart; lia).
    set (w1 := elapse true (now w + d)%N w0) in *.
    assert (Hnow : now w1 = (now w + d)%N) by reflexivity.
    clearbody w1.
    cbn [resp content_type].
    destruct (is_json (content_type r));
      unfold response_json, response_text; cbn [resp resp_signal body];
      rewrite (await_armed _ _ _ _ _ Harmed1), Hnow;
      destruct (body r) as [|d' name message|d' text];
      try (rewrite leb_shift2;
           destruct (N.leb_spec (d + d') (timer_delay (timeout_of options))) as [Hd'|Hd']);
      try rewrite on_error_platform;
      try (destruct (JSON_parse env text) as [v|message];
           [destruct (ok r)|rewrite on_error_platform]);
      try destruct (ok r);
      cbn; settle_finally;
      first
        [ destruct (world_in_time w0 w1 _ _ (S (fresh w)) _ (now w + d + d')%N
                      Harmed1 Hlater1) as (H1 & H2 & H3); [lia|lia|];
          rewrite H2; split; [exact H1|]; split; [lia|];
          split; [|apply timers_clearTimeout];
          split; [intros H; contradiction|intros H; apply N.ltb_lt in H; lia]
        | destruct (world_timed_out w0 w1 _ _ (S (fresh w)) _ Harmed1 Hlater1)
            as (H1 & H2 & H3); [lia|];
          rewrite H2; split; [exact H1|]; split; [lia|];
          split; [|apply timers_clearTimeout];
          split; [intros _; first [reflexivity|apply N.ltb_lt; lia]|intros _; exact H3] ].
Qed.

End World.

Lemma started_timers (env : Platform) (path : string) (options : RequestOptions)
    (w : World) (tm : Timer) :
  tm ∈ timers (started env path options w) ->
  tm = mkTimer (S (fresh w)) (now w + timer_delay (timeout_of options))%N (fresh w)
  \/ tm ∈ timers w.
Proof.
  unfold started; cbn [timers]. intros H. apply elem_of_cons in H. exact H.
Qed.


Section RequestExtras.

Variable env : Platform.

(** X1: in a well-formed world [request] always settles, resolved or
    rejected, whatever the network does, and it settles no later than the
    configured timeout after it was started. *)
Theorem request_settles_in_time (path : string) (options : RequestOptions) (w : World) :
  wf w ->
  ((exists v, fst (request env path options w) = Resolved v)
   \/ (exists e, fst (request env path options w) = Rejected e))
  /\ (now w <= now (snd (request env path options w)))%N
  /\ (now (snd (request env path options w)) <= now w + timeout_of options)%N.
Proof.
  intros Hwf. split; [|split].
  - pose proof (request_settles env path options w Hwf) as Hsettles.
    destruct (fst (request env path options w)) as [v|e|].
    + left. exists v. reflexivity.
    + right. exists e. reflexivity.
    + contradiction Hsettles. reflexivity.
  - destruct (request_world env path options w Hwf) as ((Hnow & _) & _).
    exact Hnow.
  - destruct (request_world env path options w Hwf) as (_ & Hnow & _).
    pose proof (timer_delay_le (timeout_of options)). lia.
Qed.

(** X2: [request] resolves only for a response with a 2xx status whose
    body was read within the timeout, and then with the decoded body. *)
Theorem request_resolves_only_on_success (path : string) (options : RequestOptions)
    (w : World) (v : JsVal) :
  wf w ->
  fst (request env path options w) = Resolved v ->
  exists d d' r text,
    server env (fetched w) (request_call env path options w) = Responds d r
    /\ body r = BodyText d' text
    /\ (d + d' <= timeout_of options)%N
    /\ ok r = true
    /\ decoded env r text = Resolved v.
Proof.
  intros Hwf. rewrite (request_run env path options w Hwf). unfold settlement.
  destruct (server env (fetched w) (request_call env path options w))
    as [|d name message|d r]; [discriminate| |].
  - destruct (N.leb d (timer_delay (timeout_of options))); discriminate.
  - destruct (N.leb d (timer_delay (timeout_of options))); [|discriminate].
    destruct (body r) as [|d' name message|d' text] eqn:Hbody; [discriminate| |].
    + destruct (N.leb (d + d') (timer_delay (timeout_of options))); discriminate.
    + destruct (N.leb_spec (d + d') (timer_delay (timeout_of options))) as [Hle|Hgt];
        [|discriminate].
      destruct (decoded env r text) as [data|e|] eqn:Hdata; [|discriminate|discriminate].
      destruct (ok r) eqn:Hok; [|discriminate].
      intros [= ->]. exists d, d', r, text. repeat split; try assumption.
      pose proof (timer_delay_le (timeout_of options)). lia.
Qed.

(** X3: a rejection of [request] is the timeout object, the [ApiError] of a
    response outside 2xx, or an error of the platform whose name is not
    "AbortError"; no error named "AbortError" reaches the caller. *)
Theorem request_rejection_kinds (path : string) (options : RequestOptions)
    (w : World) (e : JsVal) :
  wf w ->
  fst (request env path options w) = Rejected e ->
  e = timeout_error
  \/ (exists d r data,
        server env (fetched w) (request_call env path options w) = Responds d r
        /\ ok r = false /\ e = http_error r data)
  \/ (exists name message, e = js_error name message /\ name <> "AbortError").
Proof.
  assert (Hpassed : forall name message,
            passed_on name message = timeout_error
            \/ (passed_on name message = js_error name message /\ name <> "AbortError")).
  { intros name message. unfold passed_on.
    destruct (String.eqb_spec name "AbortError"); [left|right; split]; auto. }
  assert (Hkind : forall name message,
            Rejected (A := JsVal) (passed_on name message) = Rejected e ->
            e = timeout_error
            \/ (exists d r data,
                  server env (fetched w) (request_call env path options w) = Responds d r
                  /\ ok r = false /\ e = http_error r data)
            \/ (exists name message, e = js_error name message /\ name <> "AbortError")).
  { intros name message [= <-]. destruct (Hpassed name message) as [->|[-> Hne]].
    - left. reflexivity.
    - right. right. exists name, message. split; [reflexivity|exact Hne]. }
  intros Hwf. rewrite (request_run env path options w Hwf). unfold settlement.
  destruct (server env (fetched w) (request_call env path options w))
    as [|d name message|d r].
  - intros [= <-]. left. reflexivity.
  - destruct (N.leb d (timer_delay (timeout_of options))); [apply Hkind|].
    intros [= <-]. left. reflexivity.
  - destruct (N.leb d (timer_delay (timeout_of options))); [|intros [= <-]; left; reflexivity].
    destruct (body r) as [|d' name message|d' text];
      [intros [= <-]; left; reflexivity| |];
      (destruct (N.leb (d + d') (timer_delay (timeout_of options)));
       [|intros [= <-]; left; reflexivity]); [apply Hkind|].
    unfold decoded. destruct (is_json (content_type r)).
    + destruct (JSON_parse env text) as [data|message].
      * destruct (ok r) eqn:Hok; [discriminate|]. intros [= <-].
        right. left. exists d, r, data. repeat split. exact Hok.
      * intros [= <-]. right. right. exists "SyntaxError", message.
        split; [reflexivity|discriminate].
    + destruct (ok r) eqn:Hok; [discriminate|]. intros [= <-].
      right. left. exists d, r, (JStr text). repeat split. exact Hok.
Qed.

(** X4: once [request] has settled its timer is no longer pending, and
    every timer pending afterwards was pending before: the [finally]
    block releases the timer on every path and no timer is left behind. *)
Theorem request_releases_timer (path : string) (options : RequestOptions) (w : World) :
  wf w ->
  Forall (fun tm => timer_id tm <> S (fresh w))
    (timers (snd (request env path options w)))
  /\ (forall tm, tm ∈ timers (snd (request env path options w)) -> tm ∈ timers w).
Proof.
  intros Hwf.
  destruct (request_world env path options w Hwf)
    as ((_ & _ & Htimers & _) & _ & _ & Hown).
  split; [exact Hown|]. intros tm Hin.
  destruct (started_timers _ _ _ _ _ (Htimers tm Hin)) as [->|Hold]; [|exact Hold].
  rewrite Forall_forall in Hown. specialize (Hown _ Hin). cbn in Hown. contradiction.
Qed.



(** X7: the [catch] block tells a timeout by the name of the error alone:
    a failure of the platform named "AbortError" that arrives before the
    timer fires is reported as a timeout although the signal is not
    aborted. *)
Theorem request_abort_name_is_timeout (path : string) (options : RequestOptions)
    (w : World) (d : N) (message : string) :
  wf w ->
  server env (fetched w) (request_call env path options w)
    = TransportFailure d "AbortError" message ->
  (d <= timer_delay (timeout_of options))%N ->
  fst (request env path options w)
    = Rejected (JObj [("message", JStr "Request timeout. Please try again.")])
  /\ fresh w ∉ aborted (snd (request env path options w)).
Proof.
  intros Hwf Hscript Hle. split.
  - rewrite (request_run env path options w Hwf), Hscript. unfold settlement.
    replace (d <=? timer_delay (timeout_of options))%N with true by (symmetry; apply N.leb_le; lia).
    reflexivity.
  - destruct (request_world env path options w Hwf) as (_ & _ & Hiff & _).
    rewrite Hiff, Hscript. unfold overdue, completion_time.
    replace (timer_delay (timeout_of options) <? d)%N with false by (symmetry; apply N.ltb_ge; lia).
    discriminate.
Qed.

End RequestExtras.

(** ** More on the convenience methods and on [createRegistration] *)

Section ApiExtras.

Variable env : Platform.

(** X8: caller headers given as a plain object are merged over the
    default: every key of the caller is sent with the caller's value,
    "Content-Type" is "application/json" unless the caller's object has
    that very key (keys are compared as written, so a "content-type" of
    the caller is sent beside the default), and nothing else is sent. *)
Theorem request_merges_record_headers (path : string) (options : RequestOptions)
    (w : World) (fields : gmap string string) :
  opt_headers options = Some (HeadersRecord fields) ->
  exists call,
    fetched (snd (request env path options w)) = (fetched w ++ [call])%list
    /\ (forall k v, fields !! k = Some v ->
          init_headers (call_init call) !! k = Some (JStr v))
    /\ (fields !! "Content-Type" = None ->
          init_headers (call_init call) !! "Content-Type" = Some (JStr "application/json"))
    /\ (forall k, fields !! k = None -> k <> "Content-Type" ->
          init_headers (call_init call) !! k = None).
Proof.
  intros Hheaders. exists (request_call env path options w).
  split; [apply request_log|].
  unfold request_call; cbn [call_init init_headers].
  split; [|split].
  - intros k v Hk. rewrite (merged_headers_record options fields k Hheaders), Hk.
    reflexivity.
  - intros Hk. rewrite (merged_headers_record options fields _ Hheaders), Hk.
    reflexivity.
  - intros k Hk Hne. rewrite (merged_headers_record options fields k Hheaders), Hk.
    rewrite bool_decide_eq_false_2 by exact Hne. reflexivity.
Qed.

Lemma with_method_timeout (m : string) (b : Property string)
    (options : option RequestOptions) :
  timeout_of (with_method m b options) = default 10000%N (options ≫= opt_timeout).
Proof.
  unfold timeout_of.
  destruct (with_method_members m b options) as (_ & _ & _ & -> & _).
  reflexivity.
Qed.


(** X10: [createRegistration] passes no options, so its call always runs
    under the default timeout: it settles within 10000 ms, as the answer
    to its one call decides, and rejects with the timeout object when the
    answer is not complete by then. *)
Theorem createRegistration_within_10s (payload : RegistrationPayload) (w : World) :
  wf w ->
  let answer := server env (fetched w) (registration_call env payload (fresh w)) in
  fst (createRegistration env payload w) = settlement env 10000 answer
  /\ (now (snd (createRegistration env payload w)) <= now w + 10000)%N
  /\ (overdue 10000 answer = true ->
      fst (createRegistration env payload w) = Rejected timeout_error).
Proof.
  intros Hwf answer. unfold createRegistration, api_post.
  assert (Hrun : fst (request env "/registrations"
                        (with_method "POST"
                           (Own (JSON_stringify env (payload_object payload))) None) w)
                 = settlement env 10000 answer).
  { rewrite (request_run env _ _ w Hwf), createRegistration_call, with_method_timeout.
    reflexivity. }
  split; [exact Hrun|]. split.
  - destruct (request_world env "/registrations"
                (with_method "POST" (Own (JSON_stringify env (payload_object payload)))
                   None)
                w Hwf) as (_ & Hnow & _).
    rewrite with_method_timeout in Hnow. exact Hnow.
  - intros Hlate. rewrite Hrun. apply settlement_overdue, Hlate.
Qed.

End ApiExtras.

(** ** More on the registration modal *)

Lemma trim_start_empty (s : string) :
  trim_start s = EmptyString <-> all_space s = true.
Proof.
  induction s as [|a s IH]; cbn [trim_start all_space]; [tauto|].
  destruct (is_space a); cbn [andb]; [exact IH|]. split; discriminate.
Qed.

Lemma trim_end_empty (s : string) :
  trim_end s = EmptyString <-> all_space s = true.
Proof.
  induction s as [|a s IH]; cbn [trim_end all_space]; [tauto|].
  destruct (trim_end s) as [|b kept].
  - destruct (is_space a); cbn [andb]; [tauto|]. split; discriminate.
  - split; [discriminate|]. intros [_ H]%andb_prop.
    apply IH in H. discriminate.
Qed.

Lemma trim_start_all_space (s : string) :
  all_space (trim_start s) = true -> all_space s = true.
Proof.
  induction s as [|a s IH]; cbn [trim_start all_space]; [tauto|].
  destruct (is_space a) eqn:Ha; cbn [andb]; [exact IH|].
  cbn [all_space]. rewrite Ha. discriminate.
Qed.

Lemma trim_empty (s : string) : trim s = EmptyString <-> all_space s = true.
Proof.
  unfold trim. rewrite trim_end_empty. split.
  - apply trim_start_all_space.
  - intros H. apply trim_start_empty in H. rewrite H. reflexivity.
Qed.

Section ModalExtras.

Variable env : Platform.

(** X11: a text field that holds white space only is sent as the empty
    string, and only such a field is: [handleSubmit] trims and sends
    without checking what is left. *)
Theorem blank_fields_sent_empty (clock : Z) (f : FormState) :
  let data := registrationData env clock f in
  (name data = EmptyString <-> all_space (form_name f) = true)
  /\ (email data = EmptyString <-> all_space (form_email f) = true)
  /\ (phone data = EmptyString <-> all_space (form_phone f) = true)
  /\ (education data = EmptyString <-> all_space (form_education f) = true)
  /\ (address data = EmptyString <-> all_space (form_address f) = true).
Proof.
  cbn. repeat split; apply trim_empty.
Qed.

Lemma accounting_step (ui : Ui) (ev : Event) :
  length (calls ui) = (length (alerts ui) + length (inflight ui))%nat ->
  length (console ui) = length (alerts ui) ->
  Forall (fun a => a = success_text \/ a = failure_text) (alerts ui) ->
  length (calls (step env ui ev))
    = (length (alerts (step env ui ev)) + length (inflight (step env ui ev)))%nat
  /\ length (console (step env ui ev)) = length (alerts (step env ui ev))
  /\ Forall (fun a => a = success_text \/ a = failure_text) (alerts (step env ui ev)).
Proof.
  intros Hcalls Hconsole Halerts.
  destruct ui as [f sub op cs pending al co nt];
    cbn [calls alerts inflight console] in *.
  destruct ev as [clock|result|key value| |course]; unfold step;
    cbn [react rendered live seen handle modalOpen].
  - destruct op; [|repeat split; assumption].
    unfold handleSubmit; cbn [submitting]. destruct sub; cbn [calls alerts inflight console].
    + repeat split; assumption.
    + rewrite !length_app. cbn [length]. repeat split; try assumption. lia.
  - cbn [inflight].
    destruct result as [v|e|]; [| |repeat split; assumption];
      (destruct pending as [|p pending]; [repeat split; assumption|]);
      cbn [handleSubmit_settled calls alerts inflight console form modalOpen submitting];
      cbn [length] in Hcalls; rewrite !length_app; cbn [length];
      (split; [lia|split; [lia|]]);
      apply Forall_app; (split; [exact Halerts|]);
      constructor; [left; reflexivity|constructor|right; reflexivity|constructor].
  - destruct op; cbn [calls alerts inflight console]; repeat split; assumption.
  - cbn [calls alerts inflight console]; repeat split; assumption.
  - cbn [calls alerts inflight console]; repeat split; assumption.
Qed.

(** X13: whatever happens after the modal is first opened, every call
    that has settled was answered with exactly one alert and one console
    entry, and every alert is one of the two fixed texts: the calls made
    are the alerts shown plus the calls still pending. *)
Theorem every_call_is_answered (defaultCourseId : string) (evs : list Event) :
  let ui := run env (initial defaultCourseId) evs in
  length (calls ui) = (length (alerts ui) + length (inflight ui))%nat
  /\ length (console ui) = length (alerts ui)
  /\ Forall (fun a => a = success_text \/ a = failure_text) (alerts ui).
Proof.
  unfold run. rewrite <- fold_left_rev_right.
  induction (rev evs) as [|ev rest (IH1 & IH2 & IH3)]; cbn [fold_right].
  - cbn. repeat split. constructor.
  - apply accounting_step; assumption.
Qed.

Lemma text_fields_step (ui : Ui) (ev : Event) :
  (forall key value, ev <> Change key value) ->
  form_name (form (step env ui ev)) = form_name (form ui)
  /\ form_email (form (step env ui ev)) = form_email (form ui)
  /\ form_phone (form (step env ui ev)) = form_phone (form ui)
  /\ form_education (form (step env ui ev)) = form_education (form ui)
  /\ form_address (form (step env ui ev)) = form_address (form ui).
Proof.
  intros Hev. destruct ev as [clock|result|key value| |course]; unfold step;
    cbn [react rendered live seen handle].
  - unfold handleSubmit. destruct (modalOpen ui), (submitting ui); repeat split.
  - destruct result, (inflight ui); repeat split.
  - contradiction (Hev key value). reflexivity.
  - repeat split.
  - repeat split.
Qed.

(** X14: only typing changes the text fields.  Over any events without an
    [onChange], name, email, phone, education and address stay as they
    are: a successful submission does not clear the form, a failed one
    keeps it, closing and reopening the modal keep it. *)
Theorem only_typing_changes_text (ui : Ui) (evs : list Event) :
  (forall key value, Change key value ∉ evs) ->
  form_name (form (run env ui evs)) = form_name (form ui)
  /\ form_email (form (run env ui evs)) = form_email (form ui)
  /\ form_phone (form (run env ui evs)) = form_phone (form ui)
  /\ form_education (form (run env ui evs)) = form_education (form ui)
  /\ form_address (form (run env ui evs)) = form_address (form ui).
Proof.
  revert ui. induction evs as [|ev evs IH]; intros ui Hevs; [repeat split|].
  unfold run; cbn [fold_left]. fold (run env (step env ui ev) evs).
  destruct (text_fields_step ui ev) as (H1 & H2 & H3 & H4 & H5).
  { intros key value ->. apply (Hevs key value). apply elem_of_cons. left. reflexivity. }
  destruct (IH (step env ui ev)) as (G1 & G2 & G3 & G4 & G5).
  { intros key value Hin. apply (Hevs key value). apply elem_of_cons. right. exact Hin. }
  repeat split; congruence.
Qed.

(** X15: a failed submission can be retried.  After a rejection the modal
    is still open with the form as it was, and a second submit makes a
    second call with the same field values. *)
Theorem retry_after_failure (ui : Ui) (c1 c2 : Z) (e : JsVal) :
  modalOpen ui = true ->
  submitting ui = false ->
  inflight ui = [] ->
  let ui' := run env ui [Submit c1; Settled (Rejected e); Submit c2] in
  calls ui' = (calls ui ++ [registrationData env c1 (form ui);
                            registrationData env c2 (form ui)])%list
  /\ inflight ui' = [registrationData env c2 (form ui)]
  /\ form ui' = form ui
  /\ modalOpen ui' = true
  /\ alerts ui' = (alerts ui ++ [failure_text])%list.
Proof.
  intros Hopen Hidle Hnone.
  destruct ui as [f sub op cs pending al co nt];
    cbn [modalOpen submitting inflight] in *.
  subst sub op pending. cbn. rewrite <- app_assoc. repeat split.
Qed.

(** X16: closing the modal does not cancel a pending submission.  The call
    stays in flight and the form stays submitting; submit events are
    still ignored, also after the modal is opened again; and when the
    call settles its alert is shown and the form is idle again. *)
Theorem closing_does_not_cancel (ui : Ui) (clock : Z) :
  modalOpen ui = true ->
  submitting ui = false ->
  inflight ui = [] ->
  let data := registrationData env clock (form ui) in
  let closed := run env ui [Submit clock; Dismiss] in
  inflight closed = [data]
  /\ submitting closed = true
  /\ modalOpen closed = false
  /\ (forall again, step env closed (Submit again) = closed)
  /\ (forall course again,
        calls (run env closed [Open course; Submit again]) = calls closed)
  /\ (forall saved,
        alerts (step env closed (Settled (Resolved saved)))
          = (alerts ui ++ [success_text])%list
        /\ submitting (step env closed (Settled (Resolved saved))) = false
        /\ inflight (step env closed (Settled (Resolved saved))) = [])
  /\ (forall e,
        alerts (step env closed (Settled (Rejected e)))
          = (alerts ui ++ [failure_text])%list
        /\ submitting (step env closed (Settled (Rejected e))) = false
        /\ modalOpen (step env closed (Settled (Rejected e))) = false).
Proof.
  intros Hopen Hidle Hnone.
  destruct ui as [f sub op cs pending al co nt];
    cbn [modalOpen submitting inflight] in *.
  subst sub op pending. cbn. repeat split.
Qed.

(** X17: a submission never leaves the form stuck.  Whatever the network
    does with the one call of [createRegistration], the call settles, the
    form is idle again with no call pending, and either the call resolved,
    the success text was shown and the modal is closed, or it rejected,
    the failure text was shown and the modal is open with the form kept. *)
Theorem submission_returns_to_idle (ui : Ui) (clock : Z) (w : World) :
  wf w ->
  modalOpen ui = true ->
  submitting ui = false ->
  inflight ui = [] ->
  let data := registrationData env clock (form ui) in
  let result := fst (createRegistration env data w) in
  let ui' := run env ui [Submit clock; Settled result] in
  submitting ui' = false
  /\ inflight ui' = []
  /\ calls ui' = (calls ui ++ [data])%list
  /\ form ui' = form ui
  /\ ((exists saved,
         result = Resolved saved /\ modalOpen ui' = false
         /\ alerts ui' = (alerts ui ++ [success_text])%list)
      \/ (exists e,
         result = Rejected e /\ modalOpen ui' = true
         /\ alerts ui' = (alerts ui ++ [failure_text])%list)).
Proof.
  intros Hwf Hopen Hidle Hnone data result ui'.
  assert (Hsettles : result <> Pending).
  { unfold result, createRegistration, api_post. apply request_settles, Hwf. }
  unfold ui'. clearbody result.
  destruct ui as [f sub op cs pending al co nt];
    cbn [modalOpen submitting inflight form calls alerts] in *.
  subst sub op pending.
  destruct result as [saved|e|]; [| |contradiction Hsettles; reflexivity]; cbn.
  - repeat split. left. exists saved. repeat split.
  - repeat split. right. exists e. repeat split.
Qed.

End ModalExtras.

(** ** The dashboard *)

Lemma append_empty_r (s : string) : s +:+ EmptyString = s.
Proof.
  induction s as [|a s IH]; [reflexivity|]. rewrite append_cons, IH. reflexivity.
Qed.

Lemma trim_idempotent (s : string) : trim (trim s) = trim s.
Proof.
  symmetry. apply trimmed_from_trim.
  destruct (trim_trimmed s) as (before & after & _ & _ & _ & Hstart & Hend).
  exists EmptyString, EmptyString. rewrite append_empty, append_empty_r.
  repeat split; assumption.
Qed.

Lemma course_effect_cases (was_open : bool) (was_default default : string) (ui : Ui) :
  course_effect was_open was_default default (opened ui) = opened ui
  \/ course_effect was_open was_default default (opened ui)
     = mkUi (set_field FCourseId default (form ui)) (submitting ui) true
         (calls ui) (inflight ui) (alerts ui) (console ui) (net ui).
Proof.
  unfold course_effect, opened;
    cbn [modalOpen form submitting calls inflight alerts console net].
  destruct (Bool.eqb was_open true && String.eqb was_default default);
    [left|right]; reflexivity.
Qed.

Lemma course_effect_closed (was_default default : string) (ui : Ui) :
  course_effect false was_default default (opened ui)
  = mkUi (set_field FCourseId default (form ui)) (submitting ui) true
      (calls ui) (inflight ui) (alerts ui) (console ui) (net ui).
Proof. reflexivity. Qed.

(** X21: the course card shows the first four points of a course in
    order, and the "Enroll Now" badge sits beside the fourth one: a course
    with fewer than four points is shown without the badge, a course with
    more shows four points and one badge. *)
Theorem enroll_badge_on_fourth_point (points : list string) :
  List.map fst (shown_points points) = take 4 points
  /\ (length (shown_points points) <= 4)%nat
  /\ length (List.filter snd (shown_points points))
     = (if Nat.leb 4 (length points) then 1 else 0)%nat
  /\ (forall i p badge,
        shown_points points !! i = Some (p, badge) -> (badge = true <-> i = 3%nat)).
Proof.
  unfold shown_points.
  destruct points as [|p0 [|p1 [|p2 [|p3 rest]]]]; cbn; try rewrite take_0; cbn;
    (split; [reflexivity|]); (split; [lia|]); (split; [reflexivity|]);
    intros i p badge Hi;
    repeat (destruct i as [|i]; cbn in Hi; try discriminate;
            try (injection Hi as <- <-; split; [discriminate|discriminate]);
            try (injection Hi as <- <-; split; reflexivity)).
Qed.

Section DashboardExtras.

Variable env : Platform.
Variable rupee bullet : string.
Variable catalog : list Course.

(** X18: a card clicked while the modal is closed opens it on that
    card's course: the form's course is the course of the card, the
    heading is its title, what was typed and what is pending stay as they
    were.  This holds for a course card and for a session card. *)
Theorem opening_sets_course (p : Page) (course : Course) (s : Session) :
  modalOpen (modal p) = false ->
  let by_course := openCourseForm rupee course p in
  let by_session := openSessionForm bullet catalog s p in
  (modalOpen (modal by_course) = true
   /\ form (modal by_course) = set_field FCourseId (course_id course) (form (modal p))
   /\ selectedCourseId (dash by_course) = course_id course
   /\ heading (dash by_course) = course_title course
   /\ mode (dash by_course) = ModeCourse
   /\ submitting (modal by_course) = submitting (modal p)
   /\ inflight (modal by_course) = inflight (modal p)
   /\ calls (modal by_course) = calls (modal p))
  /\ (modalOpen (modal by_session) = true
      /\ form (modal by_session)
         = set_field FCourseId (session_courseId s) (form (modal p))
      /\ selectedCourseId (dash by_session) = session_courseId s
      /\ heading (dash by_session) = session_title s
      /\ mode (dash by_session) = ModeSession
      /\ submitting (modal by_session) = submitting (modal p)
      /\ inflight (modal by_session) = inflight (modal p)
      /\ calls (modal by_session) = calls (modal p)).
Proof.
  intros Hclosed. unfold openCourseForm, openSessionForm; cbn [modal dash].
  rewrite Hclosed, !course_effect_closed. repeat split.
Qed.

(** X19: the effect of the modal runs only when [open] or
    [defaultCourseId] changed.  A card clicked while the modal is open on
    the same course leaves the form as it is, a course picked in the
    select included; a card of another course sets the form's course. *)
Theorem card_click_while_open (p : Page) (course : Course) :
  modalOpen (modal p) = true ->
  (selectedCourseId (dash p) = course_id course ->
   modal (openCourseForm rupee course p) = modal p)
  /\ (selectedCourseId (dash p) <> course_id course ->
      form (modal (openCourseForm rupee course p))
      = set_field FCourseId (course_id course) (form (modal p))).
Proof.
  intros Hopen. unfold openCourseForm, course_effect, opened; cbn [modal modalOpen].
  rewrite Hopen. cbn [Bool.eqb andb]. split.
  - intros ->. rewrite String.eqb_refl.
    destruct (modal p) as [f sub op cs pending al co nt]; cbn in *. subst op. reflexivity.
  - intros Hne. apply String.eqb_neq in Hne. rewrite Hne. reflexivity.
Qed.

(** X20: [openSessionForm] does not check that the session's course
    exists.  When the catalog has a course with the session's course id, the
    sub-heading starts with the title of the first such course; when it has
    none, the sub-heading starts with the empty title, the card falls back
    to the default colour, and the modal still opens on the session's
    course id, which is then not among the options of the select. *)
Theorem session_without_course (p : Page) (s : Session) :
  modalOpen (modal p) = false ->
  let p' := openSessionForm bullet catalog s p in
  let tail := " " +:+ bullet +:+ " " +:+ session_dateText s +:+ " " +:+ bullet +:+ " "
              +:+ session_timeText s in
  form_courseId (form (modal p')) = session_courseId s
  /\ (forall course,
        find_course catalog (session_courseId s) = Some course ->
        course ∈ catalog /\ course_id course = session_courseId s
        /\ subHeading (dash p') = course_title course +:+ tail
        /\ session_color catalog s = course_color course)
  /\ (find_course catalog (session_courseId s) = None ->
        (session_courseId s ∉ List.map course_id catalog)
        /\ subHeading (dash p') = tail
        /\ session_color catalog s = "from-blue-600 to-cyan-500").
Proof.
  intros Hclosed. unfold openSessionForm, session_color; cbn [modal dash subHeading].
  rewrite Hclosed, course_effect_closed. cbn [form form_courseId set_field].
  split; [reflexivity|]. split.
  - intros course Hfind. rewrite Hfind. cbn [from_option].
    apply List.find_some in Hfind as [Hin Heq].
    apply String.eqb_eq in Heq. repeat split; [apply list_elem_of_In, Hin|exact Heq].
  - intros Hfind. rewrite Hfind. cbn [from_option]. rewrite append_empty.
    repeat split. intros Hin.
    apply list_elem_of_In, List.in_map_iff in Hin as (course & Hid & Hin).
    pose proof (List.find_none _ _ Hfind course Hin) as Hne. cbn in Hne.
    rewrite Hid, String.eqb_refl in Hne. discriminate.
Qed.

Lemma id_in_catalog (course : Course) :
  course ∈ catalog -> course_id course ∈ List.map course_id catalog.
Proof.
  intros Hin. apply list_elem_of_In, List.in_map, list_elem_of_In, Hin.
Qed.

Lemma opened_bound (p : Page) (d : Dashboard) (was_open : bool) (was_default : string) :
  catalog_bound catalog p ->
  selectedCourseId d ∈ List.map course_id catalog ->
  catalog_bound catalog
    (mkPage d (course_effect was_open was_default (selectedCourseId d) (opened (modal p)))).
Proof.
  intros (Hform & _ & Hcalls) Hd. unfold catalog_bound; cbn [modal dash].
  destruct (course_effect_cases was_open was_default (selectedCourseId d) (modal p))
    as [-> | ->]; cbn [opened form calls]; repeat split; assumption.
Qed.

Lemma page_step_bound (shown : list Session) (p : Page) (ev : PageEvent) :
  Forall (fun s => session_courseId s ∈ List.map course_id catalog) shown ->
  offered catalog shown ev ->
  catalog_bound catalog p ->
  catalog_bound catalog (page_step env rupee bullet catalog p ev).
Proof.
  intros Hshown Hev Hp. destruct ev as [course|s|ev]; cbn [page_step offered] in *.
  - apply (opened_bound p (mkDashboard ModeCourse (course_id course) _ _));
      [exact Hp|]. apply id_in_catalog, Hev.
  - apply (opened_bound p (mkDashboard ModeSession (session_courseId s) _ _));
      [exact Hp|]. rewrite Forall_forall in Hshown. apply Hshown, Hev.
  - destruct Hp as (Hform & Hdash & Hcalls).
    destruct (modal p) as [f sub op cs pending al co nt] eqn:Hmodal;
      cbn [form calls] in Hform, Hcalls.
    destruct ev as [clock|result|key value| |course]; unfold catalog_bound;
      unfold step; cbn [modal dash react rendered live seen handle modalOpen];
      rewrite ?Hmodal; cbn [form calls].
    + destruct op; [|repeat split; assumption].
      unfold handleSubmit; cbn [submitting]. destruct sub; cbn [form calls].
      * repeat split; assumption.
      * repeat split; try assumption. apply Forall_app. split; [exact Hcalls|].
        constructor; [|constructor]. cbn.
        repeat split; (exact Hform || apply trim_idempotent).
    + cbn [inflight]. destruct result as [v|e|], pending as [|q pending];
        cbn [handleSubmit_settled form calls]; repeat split; assumption.
    + destruct op; cbn [form calls]; [|repeat split; assumption].
      repeat split; try assumption.
      destruct key; destruct f; cbn in *; assumption.
    + repeat split; assumption.
    + repeat split; assumption.
Qed.

(** X22: on the page as the dashboard wires it, the course sent is always
    a course of the catalog.  When every session refers to a course of the
    catalog, then after any clicks on the cards and any events of the modal
    whose select offers the courses of the catalog, the form holds a
    catalog id and so does every call made; when the ids of the catalog
    carry no white space at their ends, every field of every payload sent,
    course included, is as [trim] leaves it. *)
Theorem catalog_courses_only (shown : list Session) (p0 : Page) (evs : list PageEvent) :
  Forall (fun s => session_courseId s ∈ List.map course_id catalog) shown ->
  initial_page catalog = Some p0 ->
  Forall (offered catalog shown) evs ->
  let p := page_run env rupee bullet catalog p0 evs in
  form_courseId (form (modal p)) ∈ List.map course_id catalog
  /\ Forall (fun data => courseId data ∈ List.map course_id catalog) (calls (modal p))
  /\ (Forall (fun course => trim (course_id course) = course_id course) catalog ->
      Forall fully_trimmed (calls (modal p))).
Proof.
  intros Hshown Hinit Hevs p.
  assert (Hbound : catalog_bound catalog p).
  { unfold p, page_run. clear p.
    assert (H0 : catalog_bound catalog p0).
    { unfold initial_page in Hinit. destruct catalog as [|first rest] eqn:Hcat;
        [discriminate|]. injection Hinit as <-. unfold catalog_bound; cbn.
      repeat split; try (apply elem_of_cons; left; reflexivity). constructor. }
    clear Hinit. revert p0 H0.
    induction Hevs as [|ev evs Hev _ IH]; intros p0 H0; cbn [fold_left]; [exact H0|].
    apply IH, page_step_bound with (shown := shown); assumption. }
  destruct Hbound as (Hform & _ & Hcalls).
  split; [exact Hform|]. split.
  - eapply Forall_impl; [exact Hcalls|]. intros data H. apply H.
  - intros Hids. eapply Forall_impl; [exact Hcalls|].
    intros data (Hid & H1 & H2 & H3 & H4 & H5).
    unfold fully_trimmed. repeat split; try assumption.
    apply list_elem_of_In, List.in_map_iff in Hid as (course & <- & Hin).
    rewrite Forall_forall in Hids. apply Hids, list_elem_of_In, Hin.
Qed.

(** The bound holds after every run of offered events. *)
Lemma page_run_bound (shown : list Session) (p0 : Page) (evs : list PageEvent) :
  Forall (fun s => session_courseId s ∈ List.map course_id catalog) shown ->
  Forall (offered catalog shown) evs ->
  catalog_bound catalog p0 ->
  catalog_bound catalog (page_run env rupee bullet catalog p0 evs).
Proof.
  intros Hshown Hevs. unfold page_run. revert p0.
  induction Hevs as [|ev evs Hev _ IH]; intros p0 H0; cbn [fold_left]; [exact H0|].
  apply IH, page_step_bound with (shown := shown); assumption.
Qed.

End DashboardExtras.

(** ** The payload of a submission *)

Section Submission.

Variable env : Platform.
Variable rupee bullet : string.

(** C4: on the page of the source, after any clicks on its cards and any
    events of its modal, a submit event that reaches the open, idle form
    calls [createRegistration] with the payload whose name, email, phone,
    education, address and courseId are the values of the form shown
    without leading and trailing white space and whose registrationDate is
    the ISO text of the current time; the body of the one POST to
    "/registrations" is that payload, serialized.  The handler acts on
    whatever state [ui] React holds by then; on the page that renders
    before every event that state is the one shown. *)
Theorem submit_sends_trimmed (evs : list PageEvent) (ui : Ui) (clock : Z) :
  Forall (offered courses sessions) evs ->
  modalOpen (modal (page_run env rupee bullet courses first_page evs)) = true ->
  submitting (modal (page_run env rupee bullet courses first_page evs)) = false ->
  let page := page_run env rupee bullet courses first_page evs in
  let shown := form (modal page) in
  let data := payload_as_stated env clock shown in
  let after := handle env (modal page) ui (Submit clock) in
  (trimmed_from (form_name shown) (name data)
   /\ trimmed_from (form_email shown) (email data)
   /\ trimmed_from (form_phone shown) (phone data)
   /\ trimmed_from (form_education shown) (education data)
   /\ trimmed_from (form_address shown) (address data)
   /\ trimmed_from (form_courseId shown) (courseId data))
  /\ registrationDate data = toISOString env clock
  /\ calls after = (calls ui ++ [data])%list
  /\ (exists call,
        fetched (net after) = (fetched (net ui) ++ [call])%list
        /\ call_url call = BASE_URL env +:+ "/registrations"
        /\ init_method (call_init call) = Some "POST"
        /\ init_body (call_init call) = JSON_stringify env (payload_object data))
  /\ modal (page_step env rupee bullet courses page (InModal (Submit clock)))
     = handle env (modal page) (modal page) (Submit clock).
Proof.
  intros Hevs Hopen Hidle. cbv zeta.
  set (page := page_run env rupee bullet courses first_page evs) in *.
  set (shown := form (modal page)).
  set (data := payload_as_stated env clock shown).
  assert (Hbound : catalog_bound courses page).
  { apply (page_run_bound env rupee bullet courses sessions);
      [repeat constructor|exact Hevs|].
    unfold catalog_bound; cbn. repeat split; constructor. }
  destruct Hbound as (Hcourse & _). fold shown in Hcourse.
  assert (Hdata : registrationData env clock shown = data).
  { unfold registrationData, data, payload_as_stated. f_equal.
    cbn in Hcourse.
    repeat (apply elem_of_cons in Hcourse as [->|Hcourse]; [reflexivity|]).
    inversion Hcourse. }
  split; [repeat split; apply trim_trimmed|]. split; [reflexivity|].
  assert (Hafter : handle env (modal page) ui (Submit clock)
                   = mkUi (form ui) true (modalOpen ui) (calls ui ++ [data])
                       (inflight ui ++ [data]) (alerts ui) (console ui)
                       (snd (createRegistration env data (net ui)))).
  { cbn [handle]. rewrite Hopen, (handleSubmit_idle env _ _ _ Hidle).
    fold shown. rewrite Hdata. reflexivity. }
  rewrite Hafter; cbn [calls net].
  split; [reflexivity|]. split; [|reflexivity].
  exists (registration_call env data (fresh (net ui))).
  split; [apply createRegistration_log|repeat split].
Qed.

End Submission.

(** ** Examples of the further properties *)

(** A submission, a second submit event after the render, a rejection
    and a retry after the next render: two calls, two requests, one
    pending. *)
Lemma one_call_between_renders_witness :
  let m :=
    react_all env_silent (rendered (initial "flutter"))
      [Fire (Submit 0); Render; Fire (Submit 5);
       Fire (Settled (Rejected timeout_error)); Render; Fire (Submit 9)] in
  length (fetched (net (live m))) = 2%nat
  /\ length (calls (live m)) = 2%nat
  /\ (submitting (live m) = true <-> inflight (live m) <> [])
  /\ (length (inflight (live m)) <= 1)%nat.
Proof.
  cbn zeta.
  destruct (one_call_between_renders env_silent "flutter"
              [Fire (Submit 0); Render; Fire (Submit 5);
               Fire (Settled (Rejected timeout_error)); Render; Fire (Submit 9)])
    as (_ & Hlength & Hguard).
  destruct (Hguard eq_refl) as [Hiff Hone].
  split; [rewrite Hlength; reflexivity|].
  split; [reflexivity|]. split; [exact Hiff|exact Hone].
Defined.

(** A session card of the Python course, a name typed with white space
    around it, then a submit event at time 0. *)
Lemma submit_sends_trimmed_witness :
  let page :=
    page_run env_silent rupee_utf8 bullet_utf8 courses first_page
      [ClickSession (mkSession "free-python" "Free Python Session" "python"
                       "15-02-2026" "10 Am to 11 Am");
       InModal (Change FName "  Asha Rao ")] in
  let after :=
    modal (page_step env_silent rupee_utf8 bullet_utf8 courses page (InModal (Submit 0))) in
  calls after = [mkPayload "Asha Rao" "" "" "" "" "python" "1970-01-01T00:00:00.000Z"]
  /\ List.map (fun call => init_body (call_init call)) (fetched (net after))
     = [JSON_stringify env_silent
          (payload_object
             (mkPayload "Asha Rao" "" "" "" "" "python" "1970-01-01T00:00:00.000Z"))].
Proof.
  cbn zeta.
  destruct (submit_sends_trimmed env_silent rupee_utf8 bullet_utf8
              [ClickSession (mkSession "free-python" "Free Python Session" "python"
                               "15-02-2026" "10 Am to 11 Am");
               InModal (Change FName "  Asha Rao ")]
              (modal (page_run env_silent rupee_utf8 bullet_utf8 courses first_page
                        [ClickSession (mkSession "free-python" "Free Python Session"
                                         "python" "15-02-2026" "10 Am to 11 Am");
                         InModal (Change FName "  Asha Rao ")]))
              0%Z)
    as (_ & _ & Hcalls & (call & Hfetched & _ & _ & Hbody) & Hpage).
  - repeat constructor.
  - reflexivity.
  - reflexivity.
  - rewrite Hpage. split; [exact Hcalls|].
    rewrite Hfetched, List.map_app. cbn [List.map]. rewrite Hbody. reflexivity.
Defined.

Lemma request_settles_in_time_witness :
  ((exists v, fst (request env_created "/registrations" no_options quiet) = Resolved v)
   \/ (exists e, fst (request env_created "/registrations" no_options quiet) = Rejected e))
  /\ (1000 <= now (snd (request env_created "/registrations" no_options quiet)))%N
  /\ (now (snd (request env_created "/registrations" no_options quiet)) <= 11000)%N.
Proof.
  apply (request_settles_in_time env_created "/registrations" no_options quiet).
  split; constructor.
Defined.

Lemma request_resolves_only_on_success_witness :
  exists d d' r text,
    json_response 201 example_saved = Responds d r
    /\ body r = BodyText d' text
    /\ (d + d' <= 10000)%N
    /\ ok r = true
    /\ decoded env_created r text = Resolved example_saved.
Proof.
  apply (request_resolves_only_on_success env_created "/registrations" no_options quiet
           example_saved).
  - split; constructor.
  - vm_compute. reflexivity.
Defined.

Lemma request_rejection_kinds_witness :
  js_error "TypeError" "Failed to fetch" = timeout_error
  \/ (exists d r data,
        TransportFailure 30 "TypeError" "Failed to fetch" = Responds d r
        /\ ok r = false /\ js_error "TypeError" "Failed to fetch" = http_error r data)
  \/ (exists name message,
        js_error "TypeError" "Failed to fetch" = js_error name message
        /\ name <> "AbortError").
Proof.
  apply (request_rejection_kinds env_offline "/registrations" no_options quiet
           (js_error "TypeError" "Failed to fetch")).
  - split; constructor.
  - vm_compute. reflexivity.
Defined.

Lemma request_releases_timer_witness :
  Forall (fun tm => timer_id tm <> 1%nat)
    (timers (snd (request env_silent "/registrations" no_options quiet)))
  /\ (forall tm,
        tm ∈ timers (snd (request env_silent "/registrations" no_options quiet)) ->
        tm ∈ timers quiet).
Proof.
  apply (request_releases_timer env_silent "/registrations" no_options quiet).
  split; constructor.
Defined.



Lemma request_abort_name_is_timeout_witness :
  fst (request env_abort_named "/registrations" no_options quiet)
    = Rejected (JObj [("message", JStr "Request timeout. Please try again.")])
  /\ 0%nat ∉ aborted (snd (request env_abort_named "/registrations" no_options quiet)).
Proof.
  apply (request_abort_name_is_timeout env_abort_named "/registrations" no_options quiet
           30%N "The user aborted a request.").
  - split; constructor.
  - reflexivity.
  - vm_compute. discriminate.
Defined.

Lemma request_merges_record_headers_witness :
  exists call,
    fetched (snd (request env_silent "/registrations" token_headers quiet)) = [call]
    /\ init_headers (call_init call) !! "X-Token" = Some (JStr "abc")
    /\ init_headers (call_init call) !! "content-type" = Some (JStr "text/plain")
    /\ init_headers (call_init call) !! "Content-Type" = Some (JStr "application/json")
    /\ init_headers (call_init call) !! "Accept" = None.
Proof.
  destruct (request_merges_record_headers env_silent "/registrations" token_headers quiet
              {[ "X-Token" := "abc"; "content-type" := "text/plain" ]} eq_refl)
    as (call & Hlog & Hown & Hdefault & Hnone).
  exists call. split; [exact Hlog|]. split; [|split; [|split]].
  - apply Hown. vm_compute. reflexivity.
  - apply Hown. vm_compute. reflexivity.
  - apply Hdefault. vm_compute. reflexivity.
  - apply Hnone; [vm_compute; reflexivity|discriminate].
Defined.


Lemma createRegistration_within_10s_witness :
  fst (createRegistration env_silent example_payload quiet) = Rejected timeout_error
  /\ (now (snd (createRegistration env_silent example_payload quiet)) <= 11000)%N.
Proof.
  destruct (createRegistration_within_10s env_silent example_payload quiet wf_quiet)
    as (_ & Hnow & Hlate).
  split; [apply Hlate; reflexivity|exact Hnow].
Defined.

Lemma only_typing_changes_text_witness :
  form_name (form (run env_silent typed_ui
                     [Submit 0; Settled (Resolved example_saved); Open "python"]))
    = "  Asha Rao "
  /\ form_courseId (form (run env_silent typed_ui
                            [Submit 0; Settled (Resolved example_saved); Open "python"]))
     = "python".
Proof.
  split; [|reflexivity].
  refine (proj1 (only_typing_changes_text env_silent typed_ui
                   [Submit 0; Settled (Resolved example_saved); Open "python"] _)).
  intros key value Hin.
  repeat (apply elem_of_cons in Hin as [Hin|Hin]; [discriminate Hin|]).
  inversion Hin.
Defined.

Lemma retry_after_failure_witness :
  calls (run env_silent typed_ui [Submit 0; Settled (Rejected timeout_error); Submit 60000])
    = [registrationData env_silent 0 typed_form;
       registrationData env_silent 60000 typed_form]
  /\ modalOpen (run env_silent typed_ui
                  [Submit 0; Settled (Rejected timeout_error); Submit 60000]) = true.
Proof.
  destruct (retry_after_failure env_silent typed_ui 0 60000 timeout_error
              eq_refl eq_refl eq_refl) as (Hcalls & _ & _ & Hopen & _).
  split; [exact Hcalls|exact Hopen].
Defined.

Lemma closing_does_not_cancel_witness :
  inflight (run env_silent typed_ui [Submit 0; Dismiss])
    = [registrationData env_silent 0 typed_form]
  /\ calls (run env_silent (run env_silent typed_ui [Submit 0; Dismiss])
              [Open "python"; Submit 5])
     = calls (run env_silent typed_ui [Submit 0; Dismiss]).
Proof.
  destruct (closing_does_not_cancel env_silent typed_ui 0 eq_refl eq_refl eq_refl)
    as (Hflight & _ & _ & _ & Hguard & _).
  split; [exact Hflight|exact (Hguard "python" 5%Z)].
Defined.

Lemma submission_returns_to_idle_witness :
  submitting (run env_conflict typed_ui
                [Submit 0;
                 Settled (fst (createRegistration env_conflict
                                 (registrationData env_conflict 0 typed_form) quiet))])
    = false.
Proof.
  exact (proj1 (submission_returns_to_idle env_conflict typed_ui 0 quiet wf_quiet
                  eq_refl eq_refl eq_refl)).
Defined.

Lemma opening_sets_course_witness :
  form_courseId (form (modal (openCourseForm rupee_utf8
                                (mkCourse "python" "Python Programming"
                                   "from-green-500 to-emerald-400" 3000 [])
                                first_page))) = "python"
  /\ subHeading (dash (openCourseForm rupee_utf8
                         (mkCourse "python" "Python Programming"
                            "from-green-500 to-emerald-400" 3000 [])
                         first_page))
     = "Course Fees: " +:+ rupee_utf8 +:+ "3000".
Proof.
  split; [|reflexivity].
  destruct (opening_sets_course rupee_utf8 bullet_utf8 courses first_page
              (mkCourse "python" "Python Programming"
                 "from-green-500 to-emerald-400" 3000 [])
              orphan_session eq_refl) as ((_ & Hform & _) & _).
  rewrite Hform. reflexivity.
Defined.

Lemma card_click_while_open_witness :
  modal (openCourseForm rupee_utf8
           (mkCourse "flutter" "Flutter Development" "from-blue-500 to-cyan-400" 3000 [])
           (mkPage (mkDashboard ModeCourse "flutter" "" "")
              (mkUi (mkForm "" "" "" "" "" "python") false true [] [] [] [] boot)))
  = mkUi (mkForm "" "" "" "" "" "python") false true [] [] [] [] boot.
Proof.
  apply (proj1 (card_click_while_open rupee_utf8
                  (mkPage (mkDashboard ModeCourse "flutter" "" "")
                     (mkUi (mkForm "" "" "" "" "" "python") false true [] [] [] [] boot))
                  (mkCourse "flutter" "Flutter Development" "from-blue-500 to-cyan-400"
                     3000 [])
                  eq_refl)).
  reflexivity.
Defined.

Lemma session_without_course_witness :
  form_courseId (form (modal (openSessionForm bullet_utf8 courses orphan_session
                                first_page))) = "rust"
  /\ ("rust" ∉ List.map course_id courses)
  /\ session_color courses orphan_session = "from-blue-600 to-cyan-500".
Proof.
  destruct (session_without_course bullet_utf8 courses first_page orphan_session eq_refl)
    as (Hform & _ & Hnone).
  destruct (Hnone eq_refl) as (Hout & _ & Hcolor).
  split; [exact Hform|]. split; [exact Hout|exact Hcolor].
Defined.

Lemma catalog_courses_only_witness :
  Forall fully_trimmed
    (calls (modal (page_run env_silent rupee_utf8 bullet_utf8 courses first_page
                     [ClickSession (mkSession "free-python" "Free Python Session"
                                      "python" "15-02-2026" "10 Am to 11 Am");
                      InModal (Change FName "  Asha Rao ");
                      InModal (Submit 0)]))).
Proof.
  refine (proj2 (proj2 (catalog_courses_only env_silent rupee_utf8 bullet_utf8 courses
                          sessions first_page _ _ eq_refl _)) _).
  - repeat constructor.
  - repeat constructor.
  - repeat constructor.
Defined.
